(** * go-spa: the static handler of package [spa] (static.go)

    A shallow embedding of [StaticHandler], [Fallback], [NoIndexRedirect],
    [ServeHTTP], [handleError] and [redirect] of static.go, and of
    [makeRequest] of static_test.go.

    The functions of Go's standard library that static.go calls are
    embedded after their Go sources: [strings.HasPrefix] and
    [strings.HasSuffix], [path.Clean], [errors.Is] with the [Is] method of
    [syscall.Errno], [URL.EscapedFragment] of [net/url], [http.Error].
    [http.ServeContent] is a parameter: the handler only hands a file to
    it.

    A call of the handler runs in a state made of the response writer, a
    log of the calls on the file system and on the writer, and a counter
    for file descriptors; the file system itself is a function from names
    to what [Open] returns. *)

From Stdlib Require Import String Ascii List Bool Arith ZArith Lia.
Import ListNotations.
Local Open Scope string_scope.
Local Open Scope nat_scope.
Local Open Scope list_scope.

(* ===================================================================== *)
(** ** Go strings *)
(* ===================================================================== *)

Module GoStrings.

(** [strings.HasPrefix]:
    [len(s) >= len(prefix) && s[:len(prefix)] == prefix]. *)
Definition HasPrefix (s prefix : string) : bool :=
  (String.length prefix <=? String.length s) &&
  String.eqb (substring 0 (String.length prefix) s) prefix.

(** [strings.HasSuffix]:
    [len(s) >= len(suffix) && s[len(s)-len(suffix):] == suffix]. *)
Definition HasSuffix (s suffix : string) : bool :=
  (String.length suffix <=? String.length s) &&
  String.eqb
    (substring (String.length s - String.length suffix)
               (String.length suffix) s)
    suffix.

End GoStrings.
Export GoStrings.

(* ===================================================================== *)
(** ** path.Clean *)
(* ===================================================================== *)

Module GoPath.

Definition slash : ascii := "/"%char.
Definition dot : ascii := "."%char.

Definition is_slash (c : ascii) : bool := Ascii.eqb c slash.
Definition is_dot (c : ascii) : bool := Ascii.eqb c dot.

(** The output buffer of [Clean] ([lazybuf]) is observable only through its
    first [w] bytes.  [out] holds exactly these bytes, the most recently
    written one first, so that [out.w] is [length out], [out.append(c)] is
    [c :: out], and [out.w--] drops the head.  After a decrement,
    [out.index(out.w)] reads the byte that was just dropped. *)
Definition lazybuf := list ascii.

(** The backtracking of a [..] element:
    [out.w--; for out.w > dotdot && out.index(out.w) != '/' { out.w-- }]. *)
Fixpoint backtrack (dotdot : nat) (out : lazybuf) : lazybuf :=
  match out with
  | [] => []
  | c :: out' =>
      if (dotdot <? length out') && negb (is_slash c)
      then backtrack dotdot out'
      else out'
  end.

(** [for ; r < n && path[r] != '/'; r++ { out.append(path[r]) }]:
    returns the buffer and the unread rest of the path. *)
Fixpoint copy_element (rest : list ascii) (out : lazybuf)
  : list ascii * lazybuf :=
  match rest with
  | c :: rest' =>
      if is_slash c then (rest, out) else copy_element rest' (c :: out)
  | [] => ([], out)
  end.

(** The main loop [for r < n { switch ... }]; [rest] is [path[r:]].  Every
    turn reads at least one byte, so [length rest] turns of fuel suffice. *)
Fixpoint clean_loop (fuel : nat) (rooted : bool) (rest : list ascii)
    (out : lazybuf) (dotdot : nat) : lazybuf :=
  match fuel with
  | O => out
  | S fuel' =>
      match rest with
      | [] => out
      | c0 :: r1 =>
          if is_slash c0 then
            (* empty path element *)
            clean_loop fuel' rooted r1 out dotdot
          else if is_dot c0 &&
                  match r1 with [] => true | c1 :: _ => is_slash c1 end then
            (* . element *)
            clean_loop fuel' rooted r1 out dotdot
          else if is_dot c0 &&
                  match r1 with
                  | c1 :: r2 =>
                      is_dot c1 &&
                      match r2 with [] => true | c2 :: _ => is_slash c2 end
                  | [] => false
                  end then
            (* .. element: remove to last / *)
            let r2 := tl r1 in
            if dotdot <? length out then
              clean_loop fuel' rooted r2 (backtrack dotdot out) dotdot
            else if negb rooted then
              let out1 := if 0 <? length out then slash :: out else out in
              let out2 := dot :: dot :: out1 in
              clean_loop fuel' rooted r2 out2 (length out2)
            else
              clean_loop fuel' rooted r2 out dotdot
          else
            (* real path element: add slash if needed, copy element *)
            let out1 :=
              if (rooted && negb (length out =? 1)) ||
                 (negb rooted && negb (length out =? 0))
              then slash :: out else out in
            let '(rest', out2) := copy_element rest out1 in
            clean_loop fuel' rooted rest' out2 dotdot
      end
  end.

(** [path.Clean] on the bytes of the path. *)
Definition clean_bytes (path : list ascii) : list ascii :=
  match path with
  | [] => [dot]
  | c0 :: r1 =>
      let rooted := is_slash c0 in
      let out :=
        if rooted
        then clean_loop (length r1) true r1 [slash] 1
        else clean_loop (length path) false path [] 0 in
      match out with
      | [] => [dot]
      | _ => rev out
      end
  end.

Definition Clean (path : string) : string :=
  string_of_list_ascii (clean_bytes (list_ascii_of_string path)).

End GoPath.
Export GoPath.

(* ===================================================================== *)
(** ** io/fs errors and errors.Is *)
(* ===================================================================== *)

Module GoErrors.

(** The error values a file system hands back: the sentinels of [io/fs],
    a [syscall.Errno], a plain [errors.New] value, and [*fs.PathError],
    which wraps another error. *)
Inductive error : Type :=
| ErrInvalid
| ErrPermission
| ErrExist
| ErrNotExist
| ErrClosed
| Errno (e : Z)
| errorString (msg : string)
| PathError (Op Path : string) (Err : error).

Definition EPERM : Z := 1.
Definition ENOENT : Z := 2.
Definition EIO : Z := 5.
Definition EACCES : Z := 13.
Definition EEXIST : Z := 17.
Definition ENOTEMPTY : Z := 39.

(** [err == target] on interface values. *)
Fixpoint error_eqb (a b : error) : bool :=
  match a, b with
  | ErrInvalid, ErrInvalid => true
  | ErrPermission, ErrPermission => true
  | ErrExist, ErrExist => true
  | ErrNotExist, ErrNotExist => true
  | ErrClosed, ErrClosed => true
  | Errno x, Errno y => Z.eqb x y
  | errorString x, errorString y => String.eqb x y
  | PathError o1 p1 e1, PathError o2 p2 e2 =>
      String.eqb o1 o2 && String.eqb p1 p2 && error_eqb e1 e2
  | _, _ => false
  end.

(** [func (e Errno) Is(target error) bool] of package [syscall]. *)
Definition Errno_Is (e : Z) (target : error) : bool :=
  match target with
  | ErrPermission => Z.eqb e EACCES || Z.eqb e EPERM
  | ErrExist => Z.eqb e EEXIST || Z.eqb e ENOTEMPTY
  | ErrNotExist => Z.eqb e ENOENT
  | _ => false
  end.

(** [errors.Is]: compare, ask the error's own [Is] method, unwrap, repeat. *)
Fixpoint errors_Is (err target : error) : bool :=
  error_eqb err target ||
  match err with
  | Errno e => Errno_Is e target
  | PathError _ _ inner => errors_Is inner target
  | _ => false
  end.

(** A Go result pair [(value, err)] with exactly one side set. *)
Inductive result (A : Type) : Type :=
| Ok (a : A)
| Err (e : error).
Arguments Ok {A} a.
Arguments Err {A} e.

End GoErrors.
Export GoErrors.

(* ===================================================================== *)
(** ** net/url: the escaped fragment *)
(* ===================================================================== *)

Module GoURL.

Definition in_range (lo hi c : ascii) : bool :=
  (nat_of_ascii lo <=? nat_of_ascii c) && (nat_of_ascii c <=? nat_of_ascii hi).

Definition one_of (cs : list ascii) (c : ascii) : bool :=
  existsb (Ascii.eqb c) cs.

(** [shouldEscape(c, encodeFragment)]. *)
Definition shouldEscape (c : ascii) : bool :=
  if in_range "a" "z" c || in_range "A" "Z" c || in_range "0" "9" c then false
  else if one_of ["-"; "_"; "."; "~"]%char c then false
  else if one_of ["$"; "&"; "+"; ","; "/"; ":"; ";"; "="; "?"; "@"]%char c
       then false
  else if one_of ["!"; "("; ")"; "*"]%char c then false
  else true.

Definition upperhex (n : nat) : ascii :=
  nth n (list_ascii_of_string "0123456789ABCDEF") "0"%char.

(** [escape(s, encodeFragment)]. *)
Fixpoint escape_bytes (s : list ascii) : list ascii :=
  match s with
  | [] => []
  | c :: s' =>
      if shouldEscape c
      then "%"%char :: upperhex (nat_of_ascii c / 16)
                    :: upperhex (nat_of_ascii c mod 16) :: escape_bytes s'
      else c :: escape_bytes s'
  end.

Definition escape (s : string) : string :=
  string_of_list_ascii (escape_bytes (list_ascii_of_string s)).

Definition ishex (c : ascii) : bool :=
  in_range "0" "9" c || in_range "a" "f" c || in_range "A" "F" c.

Definition unhex (c : ascii) : nat :=
  if in_range "0" "9" c then nat_of_ascii c - nat_of_ascii "0"
  else if in_range "a" "f" c then nat_of_ascii c - nat_of_ascii "a" + 10
  else if in_range "A" "F" c then nat_of_ascii c - nat_of_ascii "A" + 10
  else 0.

(** [unescape(s, encodeFragment)]; [None] is an [EscapeError]. *)
Fixpoint unescape_bytes (s : list ascii) : option (list ascii) :=
  match s with
  | [] => Some []
  | c :: s' =>
      if Ascii.eqb c "%" then
        match s' with
        | h1 :: h2 :: s'' =>
            if ishex h1 && ishex h2 then
              option_map
                (cons (ascii_of_nat (unhex h1 * 16 + unhex h2)))
                (unescape_bytes s'')
            else None
        | _ => None
        end
      else option_map (cons c) (unescape_bytes s')
  end.

Definition unescape (s : string) : option string :=
  option_map string_of_list_ascii
    (unescape_bytes (list_ascii_of_string s)).

(** [validEncoded(s, encodeFragment)]. *)
Definition validEncoded (s : string) : bool :=
  forallb
    (fun c =>
       if one_of ["!"; "$"; "&"; "'"; "("; ")"; "*"; "+"; ","; ";"; "=";
                  ":"; "@"]%char c then true
       else if one_of ["["; "]"]%char c then true
       else if Ascii.eqb c "%" then true
       else negb (shouldEscape c))
    (list_ascii_of_string s).

(** The fields of [url.URL] the handler reads. *)
Record URL : Type := mkURL {
  Path : string;
  RawQuery : string;
  Fragment : string;
  RawFragment : string
}.

(** [EscapedFragment], method of [URL]. *)
Definition EscapedFragment (u : URL) : string :=
  if negb (String.eqb (RawFragment u) "") && validEncoded (RawFragment u) then
    match unescape (RawFragment u) with
    | Some f =>
        if String.eqb f (Fragment u) then RawFragment u
        else escape (Fragment u)
    | None => escape (Fragment u)
    end
  else escape (Fragment u).

End GoURL.
Export GoURL.

(* ===================================================================== *)
(** ** net/http: requests, response writers, files *)
(* ===================================================================== *)

Module GoHTTP.

Definition Header := list (string * string).

(** [Header.Set]: the key's previous values are replaced. *)
Definition Header_Set (k v : string) (h : Header) : Header :=
  (k, v) :: filter (fun kv => negb (String.eqb (fst kv) k)) h.

(** [Header.Del]. *)
Definition Header_Del (k : string) (h : Header) : Header :=
  filter (fun kv => negb (String.eqb (fst kv) k)) h.

Fixpoint Header_Get (k : string) (h : Header) : string :=
  match h with
  | [] => ""
  | (k', v) :: h' => if String.eqb k' k then v else Header_Get k h'
  end.

Record Request : Type := mkRequest {
  Method : string;
  ReqURL : URL;
  ReqHeader : Header
}.

(** A recording [http.ResponseWriter] ([httptest.ResponseRecorder]):
    the header map, the status once written, and the body so far. *)
Record ResponseWriter : Type := mkRW {
  RespHeader : Header;
  Code : option Z;
  Body : string
}.

Definition NewRecorder : ResponseWriter := mkRW [] None "".

Definition StatusOK : Z := 200.
Definition StatusMovedPermanently : Z := 301.
Definition StatusInternalServerError : Z := 500.

Definition StatusText (code : Z) : string :=
  if Z.eqb code 200 then "OK"
  else if Z.eqb code 301 then "Moved Permanently"
  else if Z.eqb code 500 then "Internal Server Error"
  else "".

(** [w.Header().Set(k, v)]. *)
Definition rw_SetHeader (k v : string) (w : ResponseWriter) : ResponseWriter :=
  mkRW (Header_Set k v (RespHeader w)) (Code w) (Body w).

(** [w.WriteHeader(code)]: only the first call counts. *)
Definition rw_WriteHeader (code : Z) (w : ResponseWriter) : ResponseWriter :=
  match Code w with
  | Some _ => w
  | None => mkRW (RespHeader w) (Some code) (Body w)
  end.

(** [w.Write(b)]: writes the header with status 200 when none was written. *)
Definition rw_Write (b : string) (w : ResponseWriter) : ResponseWriter :=
  let w' := rw_WriteHeader StatusOK w in
  mkRW (RespHeader w') (Code w') (String.append (Body w') b).

Definition newline : string := String (ascii_of_nat 10) EmptyString.

(** [w.Header().Del(k)]. *)
Definition rw_DelHeader (k : string) (w : ResponseWriter) : ResponseWriter :=
  mkRW (Header_Del k (RespHeader w)) (Code w) (Body w).

(** [http.Error(w, error, code)]: the length of some other content is
    dropped, the content type is reset, the status and the message
    followed by a newline are written. *)
Definition http_Error (msg : string) (code : Z) (w : ResponseWriter)
  : ResponseWriter :=
  let w := rw_DelHeader "Content-Length" w in
  let w := rw_SetHeader "Content-Type" "text/plain; charset=utf-8" w in
  let w := rw_SetHeader "X-Content-Type-Options" "nosniff" w in
  let w := rw_WriteHeader code w in
  rw_Write (String.append msg newline) w.

(** [fs.FileInfo], as far as the handler looks at it:
    [fi.Name()], [fi.ModTime()], [fi.Mode().IsRegular()]. *)
Record FileInfo : Type := mkFileInfo {
  Name : string;
  ModTime : Z;
  IsRegular : bool
}.

(** What [Open] finds: the outcome of [Stat] on it and its bytes. *)
Record File : Type := mkFile {
  Stat : result FileInfo;
  Data : string
}.

(** [http.FileSystem]. *)
Record FileSystem : Type := mkFS {
  Open : string -> result File
}.

(** An open [http.File]: a descriptor and what it refers to. *)
Record Handle : Type := mkHandle {
  fd : nat;
  node : File
}.

(** Calls the handler makes on its collaborators, in order. *)
Inductive Event : Type :=
| EvOpen (name : string) (res : result nat)
| EvStat (fd : nat)
| EvClose (fd : nat)
| EvServeContent (fd : nat) (name : string) (modtime : Z)
| EvError (code : Z)
| EvSetHeader (k v : string)
| EvWriteHeader (code : Z).

(** The state a call runs in: the response writer, the log of calls and
    the next free descriptor. *)
Record World : Type := mkWorld {
  rw : ResponseWriter;
  trace : list Event;
  next_fd : nat
}.

End GoHTTP.
Export GoHTTP.

(* ===================================================================== *)
(** ** State passing *)
(* ===================================================================== *)

Definition M (A : Type) : Type := World -> A * World.

Definition ret {A} (a : A) : M A := fun s => (a, s).

Definition bind {A B} (m : M A) (k : A -> M B) : M B :=
  fun s => let '(a, s') := m s in k a s'.

Declare Scope go_scope.
Delimit Scope go_scope with go.
Notation "x <- m ;; k" := (bind m (fun x => k))
  (at level 61, m at next level, right associativity) : go_scope.
Notation "m ;; k" := (bind m (fun _ => k))
  (at level 61, right associativity) : go_scope.
Local Open Scope go_scope.

Definition log (e : Event) : M unit :=
  fun s => (tt, mkWorld (rw s) (trace s ++ [e]) (next_fd s)).

Definition on_writer (f : ResponseWriter -> ResponseWriter) : M unit :=
  fun s => (tt, mkWorld (f (rw s)) (trace s) (next_fd s)).

(** [defer c] in front of [body]: [c] runs when the function returns,
    whichever return statement is taken. *)
Definition defer {A} (c : M unit) (body : M A) : M A :=
  a <- body ;; c ;; ret a.

(** [fsys.Open(name)]: a fresh descriptor on success. *)
Definition fs_Open (fsys : FileSystem) (name : string) : M (result Handle) :=
  fun s =>
    match Open fsys name with
    | Ok f =>
        (Ok (mkHandle (next_fd s) f),
         mkWorld (rw s) (trace s ++ [EvOpen name (Ok (next_fd s))])
                 (S (next_fd s)))
    | Err e =>
        (Err e, mkWorld (rw s) (trace s ++ [EvOpen name (Err e)]) (next_fd s))
    end.

(** [f.Stat()]. *)
Definition file_Stat (f : Handle) : M (result FileInfo) :=
  log (EvStat (fd f)) ;; ret (Stat (node f)).

(** [f.Close()]. *)
Definition file_Close (f : Handle) : M unit :=
  log (EvClose (fd f)).

(* ===================================================================== *)
(** ** static.go *)
(* ===================================================================== *)

(** [type handler struct]. *)
Record handler : Type := mkHandler {
  fs : FileSystem;
  fallback : string;
  indexRedirect : bool
}.

(** [type Option]: a function that updates the handler it is given. *)
Definition Option : Type := handler -> handler.

(** [func StaticHandler(fs http.FileSystem, opts ...Option) http.Handler]. *)
Definition StaticHandler (fsys : FileSystem) (opts : list Option) : handler :=
  fold_left (fun h opt => opt h) opts (mkHandler fsys "/index.html" true).

(** [func Fallback(f string) Option]. *)
Definition Fallback (f : string) : Option :=
  fun h => mkHandler (fs h) f (indexRedirect h).

(** [func NoIndexRedirect() Option]. *)
Definition NoIndexRedirect : Option :=
  fun h => mkHandler (fs h) (fallback h) false.

(** Which return statement ended a call: after [redirect], after
    [http.ServeContent] in [ServeHTTP], after [http.ServeContent] in
    [handleError], or after [http.Error]. *)
Inductive Exit : Type :=
| Redirected
| Served
| ServedFallback
| Failed.

Definition w_SetHeader (k v : string) : M unit :=
  log (EvSetHeader k v) ;; on_writer (rw_SetHeader k v).

Definition w_WriteHeader (code : Z) : M unit :=
  log (EvWriteHeader code) ;; on_writer (rw_WriteHeader code).

Definition w_Error (msg : string) (code : Z) : M unit :=
  log (EvError code) ;; on_writer (http_Error msg code).

Section Handler.

(** [http.ServeContent], the content responder: what it does to the
    response writer, given the request, the name, the modification time
    and the bytes of the file. *)
Variable ServeContent :
  Request -> string -> Z -> string -> ResponseWriter -> ResponseWriter.

Definition http_ServeContent (r : Request) (name : string) (modtime : Z)
    (f : Handle) : M unit :=
  log (EvServeContent (fd f) name modtime) ;;
  on_writer (ServeContent r name modtime (Data (node f))).

(** [func redirect(w http.ResponseWriter, r *http.Request, dst string)]. *)
Definition redirect (r : Request) (dst : string) : M unit :=
  let q := RawQuery (ReqURL r) in
  let dst := if negb (String.eqb q "")
             then String.append dst (String.append "?" q) else dst in
  let f := EscapedFragment (ReqURL r) in
  let dst := if negb (String.eqb f "")
             then String.append dst (String.append "#" f) else dst in
  w_SetHeader "Location" dst ;;
  w_WriteHeader StatusMovedPermanently.

Definition error500 : M unit :=
  w_Error (StatusText StatusInternalServerError) StatusInternalServerError.

(** [handleError], method of [handler]. *)
Definition handleError (h : handler) (r : Request) (err : error) : M Exit :=
  if String.eqb (fallback h) "" ||
     (negb (errors_Is err ErrNotExist) && negb (errors_Is err ErrPermission))
  then error500 ;; ret Failed
  else
    f <- fs_Open (fs h) (fallback h) ;;
    match f with
    | Err _ => error500 ;; ret Failed
    | Ok f =>
        defer (file_Close f)
          (fi <- file_Stat f ;;
           match fi with
           | Err _ => error500 ;; ret Failed
           | Ok fi =>
               if negb (IsRegular fi) then error500 ;; ret Failed
               else
                 http_ServeContent r (Name fi) (ModTime fi) f ;;
                 ret ServedFallback
           end)
    end.

(** The path after lines 66-69: a leading slash is added when missing. *)
Definition request_path (r : Request) : string :=
  let fpath := Path (ReqURL r) in
  if negb (HasPrefix fpath "/") then String.append "/" fpath else fpath.

(** [ServeHTTP], method of [handler]. *)
Definition ServeHTTP (h : handler) (r : Request) : M Exit :=
  let fpath := request_path r in
  if indexRedirect h && HasSuffix fpath "/index.html" then
    redirect r "./" ;; ret Redirected
  else if negb (String.eqb fpath "/") && HasSuffix fpath "/" then
    handleError h r ErrNotExist
  else
    f <- fs_Open (fs h) (Clean fpath) ;;
    match f with
    | Err err => handleError h r err
    | Ok f =>
        defer (file_Close f)
          (fi <- file_Stat f ;;
           match fi with
           | Err err => handleError h r err
           | Ok fi =>
               if negb (IsRegular fi) then handleError h r ErrNotExist
               else
                 http_ServeContent r (Name fi) (ModTime fi) f ;;
                 ret Served
           end)
    end.

(** [makeRequest] of static_test.go, on a request already parsed: a new
    recorder, one call of the handler, the recorded response. *)
Definition makeRequest (h : handler) (r : Request) : M ResponseWriter :=
  fun s =>
    let '(_, s') := ServeHTTP h r (mkWorld NewRecorder (trace s) (next_fd s)) in
    (rw s', s').

End Handler.

(* ===================================================================== *)
(** ** Reading a trace *)
(* ===================================================================== *)

(** The descriptors open after an event, given those open before it. *)
Definition step_open (o : list nat) (e : Event) : list nat :=
  match e with
  | EvOpen _ (Ok d) => d :: o
  | EvClose d => remove Nat.eq_dec d o
  | _ => o
  end.

(** The descriptors still open at the end of a trace. *)
Definition still_open (tr : list Event) : list nat :=
  fold_left step_open tr [].

(** The largest number of descriptors open at the same time. *)
Fixpoint peak_from (o : list nat) (tr : list Event) : nat :=
  match tr with
  | [] => length o
  | e :: tr' => Nat.max (length o) (peak_from (step_open o e) tr')
  end.

Definition peak_open (tr : list Event) : nat := peak_from [] tr.

(** The names handed to [Open], in order. *)
Fixpoint opened_names (tr : list Event) : list string :=
  match tr with
  | [] => []
  | EvOpen name _ :: tr' => name :: opened_names tr'
  | _ :: tr' => opened_names tr'
  end.

(** The events a computation adds to the trace of its start state. *)
Definition events_of {A} (m : M A) (s : World) : list Event :=
  skipn (length (trace s)) (trace (snd (m s))).

(* ===================================================================== *)
(** ** Notions the statements below are phrased in *)
(* ===================================================================== *)

(** The decision on line 103, read positively: the fallback is configured
    and the error is a not-found or a permission error. *)
Definition eligible (h : handler) (err : error) : bool :=
  negb (String.eqb (fallback h) "") &&
  (errors_Is err ErrNotExist || errors_Is err ErrPermission).

(** The state after [http.Error(w, StatusText(500), 500)], with the events
    [evs] logged before it and [n] the next free descriptor. *)
Definition failed_after (evs : list Event) (n : nat) (s : World) : World :=
  mkWorld (http_Error "Internal Server Error" 500 (rw s))
          (trace s ++ evs ++ [EvError 500]) n.

(** The value of the [Location] header [redirect] computes from [dst]. *)
Definition location (r : Request) (dst : string) : string :=
  String.append dst
    (String.append
       (if String.eqb (RawQuery (ReqURL r)) "" then ""
        else String.append "?" (RawQuery (ReqURL r)))
       (if String.eqb (Fragment (ReqURL r)) "" then ""
        else String.append "#" (EscapedFragment (ReqURL r)))).

(** An element a cleaned path may contain: not empty, neither [.] nor
    [..], and without a slash. *)
Definition good_element (e : list ascii) : Prop :=
  e <> [] /\ e <> [dot] /\ e <> [dot; dot] /\
  Forall (fun c => is_slash c = false) e.

Definition good_name (e : string) : Prop :=
  good_element (list_ascii_of_string e).

(** The buffer of [Clean] on a rooted path after the elements [res] (the
    last one first) were written: a slash, then the elements with a slash
    between them. *)
Fixpoint render (res : list (list ascii)) : lazybuf :=
  match res with
  | [] => [slash]
  | e :: res' =>
      rev e ++ match res' with [] => [slash] | _ :: _ => slash :: render res' end
  end.

(** The elements [es], each followed by a slash but the last. *)
Fixpoint joinl (es : list (list ascii)) : list ascii :=
  match es with
  | [] => []
  | [e] => e
  | e :: es' => e ++ slash :: joinl es'
  end.

(** The rest of the path after an element is empty or starts with the
    slash that ended the element. *)
Definition at_boundary (rest : list ascii) : Prop :=
  match rest with [] => True | c :: _ => is_slash c = true end.

(** The lookup of [name] fails in a way that leads to the fallback:
    [Open] or [Stat] fails with a not-found or a permission error, or the
    entry is not a regular file. *)
Definition no_regular_file (fsys : FileSystem) (name : string) : bool :=
  match Open fsys name with
  | Err e => errors_Is e ErrNotExist || errors_Is e ErrPermission
  | Ok f =>
      match Stat f with
      | Err e => errors_Is e ErrNotExist || errors_Is e ErrPermission
      | Ok fi => negb (IsRegular fi)
      end
  end.

(** Adds [EvClose d] at the end of the trace of a result. *)
Definition closing {A} (d : nat) (x : A * World) : A * World :=
  (fst x, mkWorld (rw (snd x)) (trace (snd x) ++ [EvClose d]) (next_fd (snd x))).

(** The state [s] with [evs] added to its trace and [n] descriptors
    taken. *)
Definition logged (evs : list Event) (n : nat) (s : World) : World :=
  mkWorld (rw s) (trace s ++ evs) (n + next_fd s).

(* ===================================================================== *)
(** ** Lexical cleaning, as the specification words it *)
(* ===================================================================== *)

(** The elements of a byte string: the runs of bytes between slashes,
    empty runs included; [cur] holds the run being read, last byte
    first. *)
Fixpoint segments_from (cur : list ascii) (l : list ascii)
  : list (list ascii) :=
  match l with
  | [] => [rev cur]
  | c :: l' =>
      if is_slash c then rev cur :: segments_from [] l'
      else segments_from (c :: cur) l'
  end.

Definition segments (l : list ascii) : list (list ascii) :=
  segments_from [] l.

(** The elements of a path. *)
Definition path_elements (p : string) : list string :=
  map string_of_list_ascii (segments (list_ascii_of_string p)).

(** Resolving the elements of a rooted path from left to right: an empty
    element (a redundant separator) and [.] are dropped, [..] removes the
    element kept last, if there is one, and any other element is kept.
    [kept] holds the elements kept so far, the last one first. *)
Fixpoint resolve (kept : list string) (es : list string) : list string :=
  match es with
  | [] => rev kept
  | e :: es' =>
      if String.eqb e "" || String.eqb e "." then resolve kept es'
      else if String.eqb e ".." then resolve (tl kept) es'
      else resolve (e :: kept) es'
  end.

(** A rooted path lexically cleaned: a slash, then the resolved elements
    with one slash between them. *)
Definition lexically_clean (p : string) : string :=
  String.append "/" (String.concat "/" (resolve [] (path_elements p))).

(** [resolve] on byte strings; gives the elements kept, the last one
    first. *)
Fixpoint resolve_bytes (kept : list (list ascii)) (es : list (list ascii))
  : list (list ascii) :=
  match es with
  | [] => kept
  | e :: es' =>
      if String.eqb (string_of_list_ascii e) "" ||
         String.eqb (string_of_list_ascii e) "."
      then resolve_bytes kept es'
      else if String.eqb (string_of_list_ascii e) ".."
           then resolve_bytes (tl kept) es'
           else resolve_bytes (e :: kept) es'
  end.

(** The elements that follow the one which ends where [rest] starts. *)
Definition following (rest : list ascii) : list (list ascii) :=
  match rest with
  | [] => []
  | _ :: r => segments r
  end.

(* ===================================================================== *)
(** ** Notions for the further properties *)
(* ===================================================================== *)

(** A call of one of the two option constructors of static.go. *)
Inductive OptionCall : Type :=
| CallFallback (f : string)
| CallNoIndexRedirect.

Definition to_Option (c : OptionCall) : Option :=
  match c with
  | CallFallback f => Fallback f
  | CallNoIndexRedirect => NoIndexRedirect
  end.

(** The argument of the last [Fallback] among the calls, [dflt] when
    there is none. *)
Fixpoint last_Fallback (dflt : string) (cs : list OptionCall) : string :=
  match cs with
  | [] => dflt
  | CallFallback f :: cs' => last_Fallback f cs'
  | CallNoIndexRedirect :: cs' => last_Fallback dflt cs'
  end.

Definition is_NoIndexRedirect (c : OptionCall) : bool :=
  match c with
  | CallNoIndexRedirect => true
  | CallFallback _ => false
  end.

(** The events that complete a response: [WriteHeader], [http.Error] and
    [http.ServeContent]. *)
Definition is_response (e : Event) : bool :=
  match e with
  | EvWriteHeader _ | EvError _ | EvServeContent _ _ _ => true
  | _ => false
  end.

Definition responses (tr : list Event) : nat :=
  length (filter is_response tr).

(** Replays the file calls of a trace, with [o] the descriptors open so
    far (the last opened first).  The replay fails when [Open] returns a
    descriptor that is already open, when [Stat] or [ServeContent] gets a
    descriptor that is not open, or when [Close] gets another descriptor
    than the one opened last; otherwise it gives the descriptors left
    open. *)
Fixpoint use_files (o : list nat) (tr : list Event) : option (list nat) :=
  match tr with
  | [] => Some o
  | EvOpen _ (Ok d) :: tr' =>
      if existsb (Nat.eqb d) o then None else use_files (d :: o) tr'
  | EvStat d :: tr' =>
      if existsb (Nat.eqb d) o then use_files o tr' else None
  | EvServeContent d _ _ :: tr' =>
      if existsb (Nat.eqb d) o then use_files o tr' else None
  | EvClose d :: tr' =>
      match o with
      | d' :: o' => if Nat.eqb d d' then use_files o' tr' else None
      | [] => None
      end
  | _ :: tr' => use_files o tr'
  end.

(** The test [validEncoded] makes on one byte. *)
Definition valid_byte (c : ascii) : bool :=
  if one_of ["!"; "$"; "&"; "'"; "("; ")"; "*"; "+"; ","; ";"; "=";
             ":"; "@"]%char c then true
  else if one_of ["["; "]"]%char c then true
  else if Ascii.eqb c "%" then true
  else negb (shouldEscape c).

(** The error at the bottom of a chain of [*fs.PathError] wrappers. *)
Fixpoint root_cause (err : error) : error :=
  match err with
  | PathError _ _ inner => root_cause inner
  | _ => err
  end.

(** The root causes [handleError] answers with the fallback. *)
Definition falls_back (err : error) : bool :=
  match err with
  | ErrNotExist | ErrPermission => true
  | Errno e => Z.eqb e ENOENT || Z.eqb e EACCES || Z.eqb e EPERM
  | _ => false
  end.

(* ===================================================================== *)
(** ** A file tree and a responder to run the handler on *)
(* ===================================================================== *)

Module TestData.

Definition regular (name data : string) : result File :=
  Ok (mkFile (Ok (mkFileInfo name 0 true)) data).

Definition directory (name : string) : result File :=
  Ok (mkFile (Ok (mkFileInfo name 0 false)) "").

(** A tree with the entries static_test.go names under [./testdata]:
    the root, [/index.html], [/test.css], the directory [/dir] and
    [/dir/test.js].  A missing name fails the way [http.Dir] does, with a
    [*fs.PathError] around [ENOENT]. *)
Definition testFS : FileSystem :=
  mkFS (fun name =>
    if String.eqb name "/" then directory "testdata"
    else if String.eqb name "/dir" then directory "dir"
    else if String.eqb name "/index.html" then regular "index.html" "<index>"
    else if String.eqb name "/test.css" then regular "test.css" "body{}"
    else if String.eqb name "/dir/test.js" then regular "test.js" "js();"
    else Err (PathError "open" (String.append "testdata" name) (Errno ENOENT))).

(** A tree on which every [Open] fails with an I/O error. *)
Definition brokenFS : FileSystem :=
  mkFS (fun name => Err (PathError "open" name (Errno EIO))).

(** A tree whose entries cannot be read: permission denied on everything
    but [/index.html]. *)
Definition lockedFS : FileSystem :=
  mkFS (fun name =>
    if String.eqb name "/index.html" then regular "index.html" "<index>"
    else Err (PathError "open" name (Errno EACCES))).

(** A tree in which [/index.html] opens but cannot be examined. *)
Definition unstatFS : FileSystem :=
  mkFS (fun name =>
    if String.eqb name "/index.html"
    then Ok (mkFile (Err (Errno EIO)) "<index>")
    else Err ErrNotExist).

(** A responder for a plain GET: status 200 and the whole file. *)
Definition serveWhole (r : Request) (name : string) (modtime : Z)
    (data : string) (w : ResponseWriter) : ResponseWriter :=
  rw_Write data w.

(** [httptest.NewRequest(method, target, nil)] for a target already split
    into path and query (a request target carries no fragment). *)
Definition NewRequest (method path query : string) : Request :=
  mkRequest method (mkURL path query "" "") [].

Definition world0 : World := mkWorld NewRecorder [] 3.

(** One GET through [makeRequest], as the tests do it. *)
Definition get (h : handler) (path query : string) : ResponseWriter :=
  fst (makeRequest serveWhole h (NewRequest "GET" path query) world0).

End TestData.

(* ===================================================================== *)
(** ** Checks against static_test.go and the documentation of path.Clean *)
(* ===================================================================== *)

Example Clean_ex1 : Clean "/a/b/../c/./d//" = "/a/c/d".
Proof. reflexivity. Qed.
Example Clean_ex2 : Clean "/../../etc/passwd" = "/etc/passwd".
Proof. reflexivity. Qed.
Example Clean_ex3 : Clean "/" = "/".
Proof. reflexivity. Qed.
Example Clean_ex4 : Clean "a/../../b" = "../b".
Proof. reflexivity. Qed.
Example Clean_ex5 : Clean "/a/..b/...//.c/.." = "/a/..b/...".
Proof. reflexivity. Qed.
Example Clean_ex6 : Clean "" = ".".
Proof. reflexivity. Qed.
Example path_elements_ex : path_elements "/a//b/" = [""; "a"; ""; "b"; ""].
Proof. reflexivity. Qed.
Example lexically_clean_ex :
  map lexically_clean
      ["/a/b/../c/./d//"; "/../../etc/passwd"; "/"; "//a//"; "/a/.."; "/..a/.b"]
  = ["/a/c/d"; "/etc/passwd"; "/"; "/a"; "/"; "/..a/.b"].
Proof. reflexivity. Qed.

Module Tests.
Import TestData.

Example serve_existing_files :
  let h := StaticHandler testFS [] in
  (Code (get h "/test.css" ""), Body (get h "/test.css" ""))
    = (Some 200%Z, "body{}") /\
  (Code (get h "/dir/test.js" ""), Body (get h "/dir/test.js" ""))
    = (Some 200%Z, "js();").
Proof. split; reflexivity. Qed.

Example serve_fallback_for_non_existing_files :
  let h := StaticHandler testFS [] in
  (Code (get h "/test.js" ""), Body (get h "/test.js" ""))
    = (Some 200%Z, "<index>").
Proof. reflexivity. Qed.

Example serve_fallback_for_directories :
  let h := StaticHandler testFS [] in
  map (fun p => (Code (get h p ""), Body (get h p "")))
      ["/dir"; "/dir/"; "/test.css/"]
    = [(Some 200%Z, "<index>"); (Some 200%Z, "<index>");
       (Some 200%Z, "<index>")].
Proof. reflexivity. Qed.

Example index_redirect :
  let h := StaticHandler testFS [] in
  let w := get h "/index.html" "query#fragment" in
  Code w = Some 301%Z /\ Header_Get "Location" (RespHeader w) = "./?query#fragment".
Proof. split; reflexivity. Qed.

Example no_index_redirect :
  let h := StaticHandler testFS [NoIndexRedirect] in
  let w := get h "/index.html" "query#fragment" in
  (Code w, Body w) = (Some 200%Z, "<index>").
Proof. reflexivity. Qed.

Example custom_fallback :
  let h := StaticHandler testFS [Fallback "/dir/test.js"] in
  (Code (get h "/" ""), Body (get h "/" "")) = (Some 200%Z, "js();").
Proof. reflexivity. Qed.

End Tests.


(* ===================================================================== *)
(** ** Prefixes and suffixes *)
(* ===================================================================== *)

Section StringFacts.

Lemma substring_whole s : substring 0 (String.length s) s = s.
Proof. induction s as [|c s IH]; cbn; [reflexivity | now rewrite IH]. Qed.

Lemma substring_prefix p s :
  substring 0 (String.length p) (String.append p s) = p.
Proof. induction p as [|c p IH]; cbn; [now destruct s | now rewrite IH]. Qed.

Lemma substring_suffix p s :
  substring (String.length p) (String.length s) (String.append p s) = s.
Proof. induction p as [|c p IH]; cbn; [apply substring_whole | exact IH]. Qed.

Lemma length_append p s :
  String.length (String.append p s) = String.length p + String.length s.
Proof. induction p as [|c p IH]; cbn; [reflexivity | now rewrite IH]. Qed.

Lemma substring_split n m s :
  n + m = String.length s ->
  s = String.append (substring 0 n s) (substring n m s).
Proof.
  revert s; induction n as [|n IH]; intros s H.
  - cbn in H. subst m. rewrite substring_whole. now destruct s.
  - destruct s as [|c s]; cbn in H; [discriminate |].
    cbn. f_equal. apply IH. lia.
Qed.

(** [HasPrefix s p] holds exactly when [s] is [p] followed by something. *)
Lemma HasPrefix_spec s p :
  HasPrefix s p = true <-> exists t, s = String.append p t.
Proof.
  unfold HasPrefix. rewrite andb_true_iff, Nat.leb_le, String.eqb_eq. split.
  - intros [Hl He].
    exists (substring (String.length p) (String.length s - String.length p) s).
    rewrite <- He at 1. apply substring_split. lia.
  - intros [t ->]. rewrite length_append, substring_prefix. split; [lia | easy].
Qed.

(** [HasSuffix s x] holds exactly when [s] is something followed by the
    very bytes of [x]. *)
Lemma HasSuffix_spec s x :
  HasSuffix s x = true <-> exists t, s = String.append t x.
Proof.
  unfold HasSuffix. rewrite andb_true_iff, Nat.leb_le, String.eqb_eq. split.
  - intros [Hl He].
    exists (substring 0 (String.length s - String.length x) s).
    rewrite <- He at 2. apply substring_split. lia.
  - intros [t ->]. rewrite length_append.
    replace (String.length t + String.length x - String.length x)
      with (String.length t) by lia.
    rewrite substring_suffix. split; [lia | easy].
Qed.

Lemma request_path_rooted r : HasPrefix (request_path r) "/" = true.
Proof.
  unfold request_path.
  destruct (HasPrefix (Path (ReqURL r)) "/") eqn:E; cbn [negb]; [exact E |].
  apply HasPrefix_spec. now exists (Path (ReqURL r)).
Qed.

End StringFacts.

(* ===================================================================== *)
(** ** path.Clean on a rooted path *)
(* ===================================================================== *)

Section CleanFacts.

Lemma is_slash_true c : is_slash c = true <-> c = slash.
Proof. apply Ascii.eqb_eq. Qed.

Lemma is_dot_true c : is_dot c = true <-> c = dot.
Proof. apply Ascii.eqb_eq. Qed.

Lemma copy_element_spec rest out :
  exists e rest',
    copy_element rest out = (rest', rev e ++ out) /\
    rest = e ++ rest' /\
    Forall (fun c => is_slash c = false) e /\
    at_boundary rest'.
Proof.
  revert out; induction rest as [|c rest IH]; intros out.
  - exists [], []. cbn. repeat split; constructor.
  - cbn. destruct (is_slash c) eqn:E.
    + exists [], (c :: rest). cbn. repeat split; [constructor | exact E].
    + destruct (IH (c :: out)) as (e & rest' & H1 & H2 & H3 & H4).
      exists (c :: e), rest'. cbn. rewrite H1, <- app_assoc. cbn.
      repeat split; [now rewrite H2 | now constructor | exact H4].
Qed.

Lemma copy_element_shorter rest out :
  length (fst (copy_element rest out)) <= length rest.
Proof.
  revert out; induction rest as [|c rest IH]; intros out; cbn; [lia |].
  destruct (is_slash c); cbn; [lia |]. specialize (IH (c :: out)). lia.
Qed.

Lemma copy_element_progress c rest out :
  is_slash c = false ->
  length (fst (copy_element (c :: rest) out)) <= length rest.
Proof. intros E. cbn. rewrite E. apply copy_element_shorter. Qed.

(** Fuel beyond the length of the unread path changes nothing: the loop
    has stopped by then. *)
Lemma clean_loop_fuel f1 : forall f2 rooted rest out dotdot,
  length rest <= f1 -> length rest <= f2 ->
  clean_loop f1 rooted rest out dotdot = clean_loop f2 rooted rest out dotdot.
Proof.
  induction f1 as [|f1 IH]; intros f2 rooted rest out dotdot H1 H2.
  - destruct rest; [| cbn in H1; lia]. destruct f2; reflexivity.
  - destruct rest as [|c0 r1]; [destruct f2; reflexivity |].
    destruct f2 as [|f2]; [cbn in H2; lia |].
    cbn in H1, H2. cbn [clean_loop].
    destruct (is_slash c0) eqn:E0; [apply IH; lia |].
    destruct (is_dot c0 && match r1 with [] => true | c1 :: _ => is_slash c1 end);
      [apply IH; lia |].
    match goal with |- (if ?b then _ else _) = _ => destruct b end.
    + assert (length (tl r1) <= length r1) by (destruct r1; cbn; lia).
      destruct (dotdot <? length out); [apply IH; lia |].
      destruct (negb rooted); apply IH; lia.
    + match goal with
      | |- context [copy_element (c0 :: r1) ?o] =>
          pose proof (copy_element_progress c0 r1 o E0) as Hp;
          destruct (copy_element (c0 :: r1) o) as [rest' out2]
      end.
      cbn in Hp. apply IH; lia.
Qed.

Lemma render_nonempty res : render res <> [].
Proof.
  destruct res as [|e res]; cbn; [discriminate |].
  destruct (rev e); destruct res; discriminate.
Qed.

Lemma render_length_cons e res :
  e <> [] -> 1 < length (render (e :: res)).
Proof.
  intros He. cbn [render]. rewrite length_app, length_rev.
  destruct e; [congruence |]. destruct res; cbn; lia.
Qed.

Lemma backtrack_skip l : forall T,
  Forall (fun c => is_slash c = false) l -> 2 <= length T ->
  backtrack 1 (l ++ T) = backtrack 1 T.
Proof.
  induction l as [|c l IH]; intros T Hl HT; [reflexivity |].
  inversion Hl; subst. cbn [app backtrack].
  replace (1 <? length (l ++ T)) with true
    by (symmetry; apply Nat.ltb_lt; rewrite length_app; lia).
  rewrite H1. cbn. now apply IH.
Qed.

Lemma backtrack_to_root l :
  Forall (fun c => is_slash c = false) l -> l <> [] ->
  backtrack 1 (l ++ [slash]) = [slash].
Proof.
  induction l as [|c l IH]; intros Hl Hne; [congruence |].
  inversion Hl; subst. cbn [app backtrack].
  destruct l as [|c' l].
  - reflexivity.
  - replace (1 <? length ((c' :: l) ++ [slash])) with true
      by (symmetry; apply Nat.ltb_lt; rewrite length_app; cbn; lia).
    rewrite H1. cbn [andb negb]. apply IH; [assumption | discriminate].
Qed.

Lemma Forall_rev_slash e :
  Forall (fun c => is_slash c = false) e ->
  Forall (fun c => is_slash c = false) (rev e).
Proof. apply Forall_rev. Qed.

(** A [..] element takes the last element off the buffer. *)
Lemma backtrack_render e res :
  good_element e -> backtrack 1 (render (e :: res)) = render res.
Proof.
  intros (Hne & _ & _ & Hs). cbn [render].
  destruct res as [|e' res].
  - apply backtrack_to_root; [now apply Forall_rev_slash |].
    intros H. apply Hne. apply (f_equal (@rev ascii)) in H.
    now rewrite rev_involutive in H.
  - rewrite backtrack_skip;
      [| now apply Forall_rev_slash
       | pose proof (render_nonempty (e' :: res));
         destruct (render (e' :: res)); [congruence | cbn; lia]].
    cbn [backtrack].
    replace (is_slash slash) with true by reflexivity.
    now rewrite andb_false_r.
Qed.

(** The element copied in the default case of the loop is a good one. *)
Lemma copied_element_good c0 r1 e rest' :
  is_slash c0 = false ->
  is_dot c0 && match r1 with [] => true | c1 :: _ => is_slash c1 end = false ->
  is_dot c0 &&
    match r1 with
    | c1 :: r2 =>
        is_dot c1 && match r2 with [] => true | c2 :: _ => is_slash c2 end
    | [] => false
    end = false ->
  c0 :: r1 = e ++ rest' ->
  Forall (fun c => is_slash c = false) e ->
  at_boundary rest' ->
  good_element e.
Proof.
  intros E0 E1 E2 Heq Hs Hb. unfold good_element. repeat split; try assumption.
  - intros ->. cbn in Heq. subst rest'. cbn in Hb. congruence.
  - intros ->. cbn in Heq. injection Heq as -> <-.
    replace (is_dot dot) with true in E1 by reflexivity. cbn in E1.
    destruct r1; cbn in Hb; congruence.
  - intros ->. cbn in Heq. injection Heq as -> Hr. subst r1.
    replace (is_dot dot) with true in E2 by reflexivity. cbn in E2.
    destruct rest'; cbn in Hb; congruence.
Qed.

(** The loop on a rooted path keeps the buffer a rendering of good
    elements. *)
Lemma clean_loop_rooted fuel : forall rest res,
  Forall good_element res ->
  exists res',
    clean_loop fuel true rest (render res) 1 = render res' /\
    Forall good_element res'.
Proof.
  induction fuel as [|fuel IH]; intros rest res Hres; [now exists res |].
  destruct rest as [|c0 r1]; [now exists res |].
  cbn [clean_loop].
  destruct (is_slash c0) eqn:E0; [now apply IH |].
  destruct (is_dot c0 && match r1 with [] => true | c1 :: _ => is_slash c1 end)
    eqn:E1; [now apply IH |].
  match goal with |- context [if ?b then _ else _] =>
    match b with is_dot c0 && _ => destruct b eqn:E2 end end.
  - destruct res as [|e res].
    + cbn [render length Nat.ltb Nat.leb negb]. now apply (IH (tl r1) []).
    + inversion Hres; subst.
      replace (1 <? length (render (e :: res))) with true
        by (symmetry; apply Nat.ltb_lt, render_length_cons;
            apply (Forall_inv Hres)).
      rewrite backtrack_render by assumption. now apply IH.
  - cbn [andb orb negb]. rewrite orb_false_r.
    match goal with |- context [copy_element (c0 :: r1) ?o] =>
      destruct (copy_element_spec (c0 :: r1) o) as (e & rest' & Hc & Hq & Hs & Hb)
    end.
    rewrite Hc.
    assert (Hg : good_element e) by (eapply copied_element_good; eassumption).
    replace (rev e ++ (if negb (length (render res) =? 1)
                       then slash :: render res else render res))
      with (render (e :: res)).
    + apply IH. now constructor.
    + cbn [render]. destruct res as [|e' res]; [reflexivity |].
      pose proof (render_length_cons e' res (proj1 (Forall_inv Hres))).
      replace (length (render (e' :: res)) =? 1) with false; [reflexivity |].
      symmetry. apply Nat.eqb_neq. lia.
Qed.

Lemma rev_render res : rev (render res) = slash :: joinl (rev res).
Proof.
  induction res as [|e res IH]; [reflexivity |].
  cbn [render]. destruct res as [|e' res].
  - rewrite rev_app_distr, rev_involutive. reflexivity.
  - rewrite rev_app_distr, rev_involutive.
    change (rev (slash :: render (e' :: res)))
      with (rev (render (e' :: res)) ++ [slash]).
    rewrite IH. cbn [rev app].
    assert (Hj : forall es x, es <> [] ->
              joinl (es ++ [x]) = joinl es ++ slash :: x).
    { induction es as [|a es IHes]; intros x Hne; [congruence |].
      destruct es as [|b es]; [reflexivity |].
      change (joinl ((a :: b :: es) ++ [x]))
        with (a ++ slash :: joinl ((b :: es) ++ [x])).
      rewrite IHes by discriminate. cbn [joinl].
      rewrite <- app_assoc. reflexivity. }
    rewrite (Hj (rev res ++ [e']) e).
    + rewrite <- app_assoc. reflexivity.
    + destruct (rev res); discriminate.
Qed.

(** [Clean] of a rooted byte string: a slash, then good elements joined
    by slashes. *)
Lemma clean_bytes_rooted r1 :
  exists es,
    clean_bytes (slash :: r1) = slash :: joinl es /\ Forall good_element es.
Proof.
  unfold clean_bytes. replace (is_slash slash) with true by reflexivity.
  destruct (clean_loop_rooted (length r1) r1 []) as (res & Hl & Hg);
    [constructor |].
  change [slash] with (render []). rewrite Hl.
  exists (rev res). split; [| now apply Forall_rev].
  rewrite <- rev_render. pose proof (render_nonempty res).
  destruct (render res); [congruence | reflexivity].
Qed.

End CleanFacts.

Section CleanStrings.

Lemma string_of_list_ascii_app a b :
  string_of_list_ascii (a ++ b)
  = String.append (string_of_list_ascii a) (string_of_list_ascii b).
Proof. induction a as [|c a IH]; cbn; [reflexivity | now rewrite IH]. Qed.

Lemma string_of_joinl es :
  string_of_list_ascii (joinl es)
  = String.concat "/" (map string_of_list_ascii es).
Proof.
  induction es as [|e es IH]; [reflexivity |].
  destruct es as [|e' es]; [reflexivity |].
  change (joinl (e :: e' :: es)) with (e ++ slash :: joinl (e' :: es)).
  rewrite string_of_list_ascii_app.
  change (string_of_list_ascii (slash :: joinl (e' :: es)))
    with (String.append "/" (string_of_list_ascii (joinl (e' :: es)))).
  rewrite IH. reflexivity.
Qed.

(** [path.Clean] of a rooted path is a slash followed by good names
    joined by slashes: no empty name, no [.], no [..], no doubled or
    trailing slash. *)
Lemma Clean_rooted p :
  HasPrefix p "/" = true ->
  exists es,
    Clean p = String.append "/" (String.concat "/" es) /\
    Forall good_name es.
Proof.
  intros H. apply HasPrefix_spec in H. destruct H as [t ->].
  unfold Clean. cbn [String.append list_ascii_of_string].
  destruct (clean_bytes_rooted (list_ascii_of_string t)) as (es & He & Hg).
  change "/"%char with slash. rewrite He.
  exists (map string_of_list_ascii es). split.
  - cbn [string_of_list_ascii]. now rewrite string_of_joinl.
  - apply Forall_map. eapply Forall_impl; [| exact Hg].
    intros e Hge. unfold good_name.
    now rewrite list_ascii_of_string_of_list_ascii.
Qed.

End CleanStrings.

(* ===================================================================== *)
(** ** path.Clean computes the lexical cleaning *)
(* ===================================================================== *)

Section CleanResolves.

Lemma segments_from_element e : forall cur rest,
  Forall (fun c => is_slash c = false) e ->
  segments_from cur (e ++ rest) = segments_from (rev e ++ cur) rest.
Proof.
  induction e as [|c e IH]; intros cur rest He; [reflexivity |].
  inversion He; subst. cbn [app segments_from].
  match goal with H : is_slash c = false |- _ => rewrite H end.
  rewrite IH by assumption. cbn [rev]. now rewrite <- app_assoc.
Qed.

(** An element followed by the rest of the path is the first segment. *)
Lemma segments_element e rest :
  Forall (fun c => is_slash c = false) e ->
  at_boundary rest ->
  segments (e ++ rest) = e :: following rest.
Proof.
  intros He Hb. unfold segments. rewrite segments_from_element by assumption.
  rewrite app_nil_r. destruct rest as [|c rest]; cbn [segments_from following].
  - now rewrite rev_involutive.
  - cbn in Hb. rewrite Hb. now rewrite rev_involutive.
Qed.

(** At the end of an element only an empty segment is in the way. *)
Lemma resolve_bytes_boundary kept rest :
  at_boundary rest ->
  resolve_bytes kept (segments rest) = resolve_bytes kept (following rest).
Proof.
  intros Hb. destruct rest as [|c rest]; [reflexivity |].
  cbn in Hb. unfold segments. cbn [segments_from following]. rewrite Hb.
  reflexivity.
Qed.

Lemma eqb_string_of_list a t :
  a <> list_ascii_of_string t ->
  String.eqb (string_of_list_ascii a) t = false.
Proof.
  intros Hne. apply String.eqb_neq. intros H. apply Hne.
  rewrite <- H. now rewrite list_ascii_of_string_of_list_ascii.
Qed.

(** A good element is kept. *)
Lemma resolve_bytes_good kept e es :
  good_element e ->
  resolve_bytes kept (e :: es) = resolve_bytes (e :: kept) es.
Proof.
  intros (H0 & H1 & H2 & _). cbn [resolve_bytes].
  rewrite (eqb_string_of_list e "" H0).
  rewrite (eqb_string_of_list e "." H1).
  rewrite (eqb_string_of_list e ".." H2).
  reflexivity.
Qed.

(** The loop of [path.Clean] on a rooted path resolves the segments of
    what it has not read yet. *)
Lemma clean_loop_resolves fuel : forall rest res,
  Forall good_element res ->
  length rest <= fuel ->
  clean_loop fuel true rest (render res) 1
  = render (resolve_bytes res (segments rest)).
Proof.
  induction fuel as [|fuel IH]; intros rest res Hres Hf.
  - destruct rest; [reflexivity | cbn in Hf; lia].
  - destruct rest as [|c0 r1]; [reflexivity |].
    cbn [length] in Hf. cbn [clean_loop].
    destruct (is_slash c0) eqn:E0.
    { rewrite IH by (assumption || lia).
      unfold segments. cbn [segments_from]. rewrite E0. reflexivity. }
    destruct (is_dot c0 &&
              match r1 with [] => true | c1 :: _ => is_slash c1 end) eqn:E1.
    { apply andb_true_iff in E1. destruct E1 as [D0 B1].
      apply is_dot_true in D0. subst c0.
      assert (Hb : at_boundary r1) by (destruct r1; [exact I | exact B1]).
      rewrite IH by (assumption || lia).
      change (dot :: r1) with ([dot] ++ r1).
      rewrite segments_element by (assumption || (constructor; [reflexivity | constructor])).
      cbn [resolve_bytes]. now rewrite resolve_bytes_boundary. }
    match goal with |- context [if ?b then _ else _] =>
      match b with is_dot c0 && _ => destruct b eqn:E2 end end.
    { apply andb_true_iff in E2. destruct E2 as [D0 E2].
      apply is_dot_true in D0. subst c0.
      destruct r1 as [|c1 r2]; [discriminate |].
      apply andb_true_iff in E2. destruct E2 as [D1 B2].
      apply is_dot_true in D1. subst c1. cbn [tl].
      assert (Hb : at_boundary r2) by (destruct r2; [exact I | exact B2]).
      change (dot :: dot :: r2) with ([dot; dot] ++ r2).
      rewrite segments_element
        by (assumption ||
            (constructor; [reflexivity | constructor;
                                         [reflexivity | constructor]])).
      cbn [resolve_bytes].
      change (String.eqb (string_of_list_ascii [dot; dot]) "") with false.
      change (String.eqb (string_of_list_ascii [dot; dot]) ".") with false.
      change (String.eqb (string_of_list_ascii [dot; dot]) "..") with true.
      cbn [orb]. cbv iota.
      rewrite <- resolve_bytes_boundary by assumption.
      destruct res as [|e res].
      - cbn [render length Nat.ltb Nat.leb negb tl].
        apply (IH r2 []); [constructor | cbn in Hf; lia].
      - replace (1 <? length (render (e :: res))) with true
          by (symmetry; apply Nat.ltb_lt, render_length_cons;
              apply (Forall_inv Hres)).
        rewrite backtrack_render by apply (Forall_inv Hres).
        cbn [tl]. apply IH; [apply (Forall_inv_tail Hres) | cbn in Hf; lia]. }
    cbn [andb orb negb]. rewrite orb_false_r.
    match goal with |- context [copy_element (c0 :: r1) ?o] =>
      destruct (copy_element_spec (c0 :: r1) o) as (e & rest' & Hc & Hq & Hs & Hb);
      pose proof (copy_element_progress c0 r1 o E0) as Hp
    end.
    rewrite Hc in Hp |- *. cbn [fst] in Hp.
    assert (Hg : good_element e) by (eapply copied_element_good; eassumption).
    replace (rev e ++ (if negb (length (render res) =? 1)
                       then slash :: render res else render res))
      with (render (e :: res)).
    + rewrite IH by (try (now constructor); lia).
      rewrite Hq, segments_element by assumption.
      rewrite resolve_bytes_good by assumption.
      now rewrite resolve_bytes_boundary.
    + cbn [render]. destruct res as [|e' res]; [reflexivity |].
      pose proof (render_length_cons e' res (proj1 (Forall_inv Hres))).
      replace (length (render (e' :: res)) =? 1) with false; [reflexivity |].
      symmetry. apply Nat.eqb_neq. lia.
Qed.

Lemma clean_bytes_resolves r1 :
  clean_bytes (slash :: r1)
  = slash :: joinl (rev (resolve_bytes [] (segments r1))).
Proof.
  unfold clean_bytes. replace (is_slash slash) with true by reflexivity.
  change [slash] with (render []).
  rewrite clean_loop_resolves by (constructor || lia).
  pose proof (render_nonempty (resolve_bytes [] (segments r1))) as Hn.
  destruct (render (resolve_bytes [] (segments r1))) eqn:E; [congruence |].
  rewrite <- E. apply rev_render.
Qed.

(** [resolve] on strings and on byte strings agree. *)
Lemma resolve_map es : forall kept,
  resolve (map string_of_list_ascii kept) (map string_of_list_ascii es)
  = map string_of_list_ascii (rev (resolve_bytes kept es)).
Proof.
  induction es as [|e es IH]; intros kept.
  - cbn [map resolve resolve_bytes]. now rewrite map_rev.
  - cbn [map resolve resolve_bytes].
    destruct (String.eqb (string_of_list_ascii e) "" ||
              String.eqb (string_of_list_ascii e) "."); [apply IH |].
    destruct (String.eqb (string_of_list_ascii e) "..").
    + rewrite <- IH. now destruct kept.
    + apply (IH (e :: kept)).
Qed.

(** On a rooted path [path.Clean] is the lexical cleaning: every element
    of the result is an element of the path, in the order of the path,
    with the empty ones and [.] left out and each [..] taking the element
    before it away. *)
Lemma Clean_resolves p :
  HasPrefix p "/" = true -> Clean p = lexically_clean p.
Proof.
  intros H. apply HasPrefix_spec in H. destruct H as [t ->].
  unfold Clean, lexically_clean, path_elements.
  cbn [String.append list_ascii_of_string]. change "/"%char with slash.
  rewrite clean_bytes_resolves.
  unfold segments at 2. cbn [segments_from].
  replace (is_slash slash) with true by reflexivity.
  fold (segments (list_ascii_of_string t)).
  cbn [map rev string_of_list_ascii resolve String.eqb orb].
  change (resolve [] (map string_of_list_ascii
                        (segments (list_ascii_of_string t))))
    with (resolve (map string_of_list_ascii [])
            (map string_of_list_ascii (segments (list_ascii_of_string t)))).
  rewrite resolve_map, string_of_joinl. reflexivity.
Qed.

Lemma segments_from_no_slash l : forall cur,
  Forall (fun c => is_slash c = false) cur ->
  Forall (Forall (fun c => is_slash c = false)) (segments_from cur l).
Proof.
  induction l as [|c l IH]; intros cur Hc; cbn [segments_from].
  - constructor; [now apply Forall_rev | constructor].
  - destruct (is_slash c) eqn:E.
    + constructor; [now apply Forall_rev | apply IH; constructor].
    + apply IH. now constructor.
Qed.

Lemma path_elements_no_slash p :
  Forall (fun e => Forall (fun c => is_slash c = false)
                     (list_ascii_of_string e))
         (path_elements p).
Proof.
  unfold path_elements, segments. apply Forall_map.
  eapply Forall_impl; [| apply segments_from_no_slash; constructor].
  intros e He. now rewrite list_ascii_of_string_of_list_ascii.
Qed.

Lemma resolve_good_from es : forall kept,
  Forall good_name kept ->
  Forall (fun e => Forall (fun c => is_slash c = false)
                     (list_ascii_of_string e)) es ->
  Forall good_name (resolve kept es).
Proof.
  induction es as [|e es IH]; intros kept Hk Hes; cbn [resolve].
  - now apply Forall_rev.
  - inversion Hes as [|? ? He Hes']; subst.
    destruct (String.eqb e "") eqn:E0; cbn [orb]; [now apply IH |].
    destruct (String.eqb e ".") eqn:E1; [now apply IH |].
    destruct (String.eqb e "..") eqn:E2.
    + apply IH; [| assumption]. destruct kept; [constructor |].
      now inversion Hk.
    + apply IH; [| assumption]. constructor; [| assumption].
      apply String.eqb_neq in E0, E1, E2.
      assert (Hinj : forall t, list_ascii_of_string e = list_ascii_of_string t
                               -> e = t).
      { intros t Ht. apply (f_equal string_of_list_ascii) in Ht.
        now rewrite !string_of_list_ascii_of_string in Ht. }
      unfold good_name, good_element. repeat split; try assumption.
      * intros H. apply E0. now apply (Hinj "").
      * intros H. apply E1. now apply (Hinj ".").
      * intros H. apply E2. now apply (Hinj "..").
Qed.

(** The resolved elements of a path are good names. *)
Lemma resolve_good p : Forall good_name (resolve [] (path_elements p)).
Proof.
  apply resolve_good_from; [constructor | apply path_elements_no_slash].
Qed.

(** Resolving keeps elements of the path and makes none up. *)
Lemma resolve_incl es : forall kept e,
  In e (resolve kept es) -> In e kept \/ In e es.
Proof.
  induction es as [|x es IH]; intros kept e H.
  - left. cbn in H. now apply in_rev.
  - cbn [resolve] in H.
    destruct (String.eqb x "" || String.eqb x ".").
    { destruct (IH _ _ H); [now left | right; now right]. }
    destruct (String.eqb x "..").
    + destruct (IH _ _ H) as [Hk | He]; [left | right; now right].
      destruct kept; [exact Hk | now right].
    + destruct (IH _ _ H) as [[<- | Hk] | He];
        [right; now left | now left | right; now right].
Qed.

End CleanResolves.

(* ===================================================================== *)
(** ** The escaped fragment *)
(* ===================================================================== *)

Section FragmentFacts.

Lemma string_of_list_ascii_nil l : string_of_list_ascii l = "" -> l = [].
Proof. destruct l; [reflexivity | discriminate]. Qed.

Lemma list_ascii_of_string_nil s : list_ascii_of_string s = [] -> s = "".
Proof. destruct s; [reflexivity | discriminate]. Qed.

Lemma escape_empty s : escape s = "" <-> s = "".
Proof.
  split; [| now intros ->].
  unfold escape. intros H. apply string_of_list_ascii_nil in H.
  apply list_ascii_of_string_nil.
  destruct (list_ascii_of_string s) as [|c l]; [reflexivity |].
  cbn in H. destruct (shouldEscape c); discriminate.
Qed.

Lemma unescape_bytes_empty l : unescape_bytes l = Some [] -> l = [].
Proof.
  destruct l as [|c l]; [reflexivity |]. cbn.
  destruct (Ascii.eqb c "%").
  - destruct l as [|h1 [|h2 l]]; try discriminate.
    destruct (ishex h1 && ishex h2); [| discriminate].
    destruct (unescape_bytes l); discriminate.
  - destruct (unescape_bytes l); discriminate.
Qed.

Lemma unescape_empty s : unescape s = Some "" -> s = "".
Proof.
  unfold unescape. intros H. apply list_ascii_of_string_nil.
  apply unescape_bytes_empty.
  destruct (unescape_bytes (list_ascii_of_string s)) as [l|]; [| discriminate].
  cbn in H. injection H as H. apply string_of_list_ascii_nil in H. now subst.
Qed.

(** The escaped fragment is empty exactly when the fragment is. *)
Lemma EscapedFragment_empty u :
  EscapedFragment u = "" <-> Fragment u = "".
Proof.
  unfold EscapedFragment.
  destruct (String.eqb (RawFragment u) "") eqn:Er; cbn [negb andb];
    [apply escape_empty |].
  destruct (validEncoded (RawFragment u)); [| apply escape_empty].
  destruct (unescape (RawFragment u)) as [f|] eqn:Eu; [| apply escape_empty].
  destruct (String.eqb f (Fragment u)) eqn:Ef; [| apply escape_empty].
  apply String.eqb_eq in Ef. apply String.eqb_neq in Er. subst f. split.
  - intros H. congruence.
  - intros H. rewrite H in Eu. apply unescape_empty in Eu. congruence.
Qed.

End FragmentFacts.

(* ===================================================================== *)
(** ** The handler, case by case *)
(* ===================================================================== *)

Lemma append_assoc a b c :
  String.append (String.append a b) c = String.append a (String.append b c).
Proof. induction a as [|x a IH]; cbn; [reflexivity | now rewrite IH]. Qed.

Lemma append_empty_r a : String.append a "" = a.
Proof. induction a as [|x a IH]; cbn; [reflexivity | now rewrite IH]. Qed.

Lemma events_of_app {A} (m : M A) s evs :
  trace (snd (m s)) = trace s ++ evs -> events_of m s = evs.
Proof.
  intros H. unfold events_of. rewrite H, skipn_app, skipn_all, Nat.sub_diag.
  reflexivity.
Qed.

Section HandlerFacts.

Variable SC :
  Request -> string -> Z -> string -> ResponseWriter -> ResponseWriter.

Lemma eligible_gate h err :
  String.eqb (fallback h) "" ||
  (negb (errors_Is err ErrNotExist) && negb (errors_Is err ErrPermission))
  = negb (eligible h err).
Proof.
  unfold eligible.
  destruct (String.eqb (fallback h) ""), (errors_Is err ErrNotExist),
    (errors_Is err ErrPermission); reflexivity.
Qed.

Ltac run :=
  cbv [bind ret defer log on_writer fs_Open file_Stat file_Close
       w_SetHeader w_WriteHeader w_Error error500 http_ServeContent
       logged closing failed_after
       rw trace next_fd fd node fst snd];
  cbn [StatusText StatusInternalServerError StatusMovedPermanently
       Z.eqb Pos.eqb Nat.add].

(** [handleError] spelled out: its exit, the writer, the trace and the
    descriptor counter at each of its five returns. *)
Lemma handleError_eq h r err s :
  handleError SC h r err s =
  if eligible h err then
    let d := next_fd s in
    match Open (fs h) (fallback h) with
    | Err e => (Failed, failed_after [EvOpen (fallback h) (Err e)] d s)
    | Ok f =>
        match Stat f with
        | Err _ =>
            closing d
              (Failed,
               failed_after [EvOpen (fallback h) (Ok d); EvStat d] (S d) s)
        | Ok fi =>
            if IsRegular fi then
              (ServedFallback,
               mkWorld (SC r (Name fi) (ModTime fi) (Data f) (rw s))
                 (trace s ++ [EvOpen (fallback h) (Ok d); EvStat d;
                              EvServeContent d (Name fi) (ModTime fi);
                              EvClose d]) (S d))
            else
              closing d
                (Failed,
                 failed_after [EvOpen (fallback h) (Ok d); EvStat d] (S d) s)
        end
    end
  else (Failed, failed_after [] (next_fd s) s).
Proof.
  unfold handleError. rewrite eligible_gate.
  destruct (eligible h err); cbn [negb]; [| destruct s; reflexivity].
  destruct s as [w tr n]. run.
  destruct (Open (fs h) (fallback h)) as [f|e]; cbn.
  - destruct (Stat f) as [fi|e]; cbn.
    + destruct (IsRegular fi); cbn; rewrite <- !app_assoc; reflexivity.
    + rewrite <- !app_assoc; reflexivity.
  - rewrite <- !app_assoc. reflexivity.
Qed.

(** The destination [redirect] computes is [location]. *)
Lemma redirect_eq r dst s :
  redirect r dst s =
  (tt, mkWorld
         (rw_WriteHeader 301 (rw_SetHeader "Location" (location r dst) (rw s)))
         (trace s ++ [EvSetHeader "Location" (location r dst);
                      EvWriteHeader 301])
         (next_fd s)).
Proof.
  assert (E : (if negb (String.eqb (EscapedFragment (ReqURL r)) "")
               then String.append
                      (if negb (String.eqb (RawQuery (ReqURL r)) "")
                       then String.append dst
                              (String.append "?" (RawQuery (ReqURL r)))
                       else dst)
                      (String.append "#" (EscapedFragment (ReqURL r)))
               else if negb (String.eqb (RawQuery (ReqURL r)) "")
                    then String.append dst
                           (String.append "?" (RawQuery (ReqURL r)))
                    else dst)
              = location r dst).
  { unfold location.
    assert (Ef : String.eqb (EscapedFragment (ReqURL r)) ""
                 = String.eqb (Fragment (ReqURL r)) "").
    { apply eq_true_iff_eq. rewrite !String.eqb_eq.
      apply EscapedFragment_empty. }
    rewrite Ef.
    destruct (String.eqb (Fragment (ReqURL r)) ""),
      (String.eqb (RawQuery (ReqURL r)) ""); cbn [negb];
      rewrite ?append_assoc, ?append_empty_r; cbn [String.append];
      rewrite ?append_empty_r; reflexivity. }
  unfold redirect. cbv zeta. rewrite E. destruct s as [w tr n]. run.
  rewrite <- !app_assoc. reflexivity.
Qed.

(** [ServeHTTP] spelled out, with [handleError] left as a call. *)
Lemma ServeHTTP_eq h r s :
  ServeHTTP SC h r s =
  let fpath := request_path r in
  let d := next_fd s in
  if indexRedirect h && HasSuffix fpath "/index.html" then
    (Redirected,
     mkWorld
       (rw_WriteHeader 301 (rw_SetHeader "Location" (location r "./") (rw s)))
       (trace s ++ [EvSetHeader "Location" (location r "./");
                    EvWriteHeader 301])
       d)
  else if negb (String.eqb fpath "/") && HasSuffix fpath "/" then
    handleError SC h r ErrNotExist s
  else
    match Open (fs h) (Clean fpath) with
    | Err e =>
        handleError SC h r e (logged [EvOpen (Clean fpath) (Err e)] 0 s)
    | Ok f =>
        let s1 := logged [EvOpen (Clean fpath) (Ok d); EvStat d] 1 s in
        match Stat f with
        | Err e => closing d (handleError SC h r e s1)
        | Ok fi =>
            if IsRegular fi then
              (Served,
               mkWorld (SC r (Name fi) (ModTime fi) (Data f) (rw s))
                 (trace s ++ [EvOpen (Clean fpath) (Ok d); EvStat d;
                              EvServeContent d (Name fi) (ModTime fi);
                              EvClose d]) (S d))
            else closing d (handleError SC h r ErrNotExist s1)
        end
    end.
Proof.
  unfold ServeHTTP. cbv zeta.
  destruct (indexRedirect h && HasSuffix (request_path r) "/index.html").
  { unfold bind at 1. rewrite redirect_eq. reflexivity. }
  destruct (negb (String.eqb (request_path r) "/") &&
            HasSuffix (request_path r) "/"); [reflexivity |].
  destruct s as [w tr n]. run.
  destruct (Open (fs h) (Clean (request_path r))) as [f|e]; cbn.
  - destruct (Stat f) as [fi|e]; cbn.
    + destruct (IsRegular fi); cbn.
      * rewrite <- !app_assoc; reflexivity.
      * rewrite <- !app_assoc; cbn.
        destruct (handleError SC h r ErrNotExist _) as [x [w' tr' n']].
        reflexivity.
    + rewrite <- !app_assoc; cbn.
      destruct (handleError SC h r e _) as [x [w' tr' n']]. reflexivity.
  - reflexivity.
Qed.

End HandlerFacts.

Lemma skipn_trace {A} (l evs : list A) : skipn (length l) (l ++ evs) = evs.
Proof. rewrite skipn_app, skipn_all, Nat.sub_diag. reflexivity. Qed.

(** Splits a goal along every test [ServeHTTP] and [handleError] make and
    brings the trace of each case into the form [trace ++ events]. *)
Ltac handler_cases :=
  repeat match goal with
         | H : ?b = _ |- context [if ?b then _ else _] =>
             rewrite H; cbv beta iota
         | H : ?o = _ |- context [match ?o with Ok _ => _ | Err _ => _ end] =>
             rewrite H; cbv beta iota
         | |- context [if ?b then _ else _] =>
             destruct b eqn:?; cbv beta iota
         | |- context [match Open ?a ?b with _ => _ end] =>
             destruct (Open a b) eqn:?; cbv beta iota
         | |- context [match Stat ?f with _ => _ end] =>
             destruct (Stat f) eqn:?; cbv beta iota
         end.

Ltac handler_norm :=
  cbv [closing logged failed_after fst snd trace rw next_fd];
  rewrite <- ?app_assoc; cbn [app Nat.add];
  rewrite ?skipn_trace.

Ltac handler_unfold :=
  unfold makeRequest, events_of; rewrite ?ServeHTTP_eq; cbv zeta.

Ltac handler_split :=
  handler_unfold;
  repeat (progress (handler_cases; rewrite ?handleError_eq; cbv zeta));
  handler_norm.

(* ===================================================================== *)
(** ** Properties of the handler *)
(* ===================================================================== *)

Section Properties.

Variable SC :
  Request -> string -> Z -> string -> ResponseWriter -> ResponseWriter.

Lemma makeRequest_fst h r s :
  fst (makeRequest SC h r s)
  = rw (snd (ServeHTTP SC h r
               (mkWorld NewRecorder (trace s) (next_fd s)))).
Proof.
  unfold makeRequest. now destruct (ServeHTTP SC h r _) as [x s'].
Qed.

Lemma handleError_opened h r err s :
  opened_names (events_of (handleError SC h r err) s)
  = if eligible h err then [fallback h] else [].
Proof.
  destruct s as [w tr n]. handler_split; reflexivity.
Qed.

Lemma http_Error_fresh msg code w :
  Code w = None ->
  Code (http_Error msg code w) = Some code /\
  Body (http_Error msg code w)
  = String.append (Body w) (String.append msg newline).
Proof.
  intros H. unfold http_Error, rw_Write, rw_WriteHeader, rw_SetHeader,
    rw_DelHeader.
  cbn. rewrite H. cbn. split; reflexivity.
Qed.

(** C1. When a lookup fails, [handleError] tries the fallback exactly when
    the fallback path is not empty and the error is a not-found or a
    permission error; otherwise it opens nothing and answers at once with
    status 500 and the generic text of that status. *)
Theorem handleError_fallback_gate h r err s :
  (opened_names (events_of (handleError SC h r err) s) = [fallback h]
   <-> String.eqb (fallback h) "" = false /\
       (errors_Is err ErrNotExist = true \/
        errors_Is err ErrPermission = true)) /\
  (String.eqb (fallback h) "" = true \/
   (errors_Is err ErrNotExist = false /\ errors_Is err ErrPermission = false)
   ->
   handleError SC h r err s
   = (Failed,
      mkWorld (http_Error "Internal Server Error" 500 (rw s))
              (trace s ++ [EvError 500]) (next_fd s)) /\
   (Code (rw s) = None ->
    Code (rw (snd (handleError SC h r err s))) = Some 500%Z /\
    Body (rw (snd (handleError SC h r err s)))
    = String.append (Body (rw s))
        (String.append "Internal Server Error" newline))).
Proof.
  assert (He : eligible h err = true <->
               String.eqb (fallback h) "" = false /\
               (errors_Is err ErrNotExist = true \/
                errors_Is err ErrPermission = true)).
  { unfold eligible.
    rewrite andb_true_iff, negb_true_iff, orb_true_iff. reflexivity. }
  split.
  - rewrite handleError_opened, <- He.
    destruct (eligible h err); split; congruence.
  - intros Hno.
    assert (Hf : eligible h err = false).
    { destruct (eligible h err) eqn:E; [| reflexivity].
      destruct (proj1 He eq_refl) as [E1 E2].
      destruct Hno as [Hno | [Hn Hp]]; [congruence |].
      destruct E2; congruence. }
    rewrite handleError_eq, Hf. unfold failed_after. cbn [app fst snd rw].
    split; [reflexivity |]. intros Hc. now apply http_Error_fresh.
Qed.

Lemma list_ascii_of_string_app a b :
  list_ascii_of_string (String.append a b)
  = list_ascii_of_string a ++ list_ascii_of_string b.
Proof. induction a as [|c a IH]; cbn; [reflexivity | now rewrite IH]. Qed.

(** A path that ends with a slash does not end with [/index.html]. *)
Lemma trailing_slash_not_index p :
  HasSuffix p "/" = true -> HasSuffix p "/index.html" = false.
Proof.
  intros H1. destruct (HasSuffix p "/index.html") eqn:H2; [| reflexivity].
  apply HasSuffix_spec in H1, H2. destruct H1 as [a Ha], H2 as [b Hb].
  rewrite Ha in Hb. apply (f_equal list_ascii_of_string) in Hb.
  rewrite !list_ascii_of_string_app in Hb.
  apply (f_equal (@rev ascii)) in Hb. rewrite !rev_app_distr in Hb.
  cbn in Hb. discriminate.
Qed.

(** A path that ends with [/index.html] is not [/] and does not end with
    a slash. *)
Lemma index_not_trailing_slash p :
  HasSuffix p "/index.html" = true ->
  negb (String.eqb p "/") && HasSuffix p "/" = false.
Proof.
  intros H. destruct (HasSuffix p "/") eqn:E; [| apply andb_false_r].
  apply trailing_slash_not_index in E. congruence.
Qed.

(** C2. The handler redirects exactly when index redirection is on and
    the normalized path ends with the bytes [/index.html].  It then
    touches no file, sets [Location] to [./], followed by [?] and the query
    when the query is not empty, followed by [#] and the escaped fragment
    when the fragment is not empty, and writes status 301 with no body.
    With index redirection off such a path is looked up like any other:
    the first thing the handler does is open the cleaned path. *)
Theorem index_redirect_spec h r s :
  let fpath := request_path r in
  let fires := indexRedirect h && HasSuffix fpath "/index.html" in
  let loc := String.append "./"
               (String.append
                  (if String.eqb (RawQuery (ReqURL r)) "" then ""
                   else String.append "?" (RawQuery (ReqURL r)))
                  (if String.eqb (Fragment (ReqURL r)) "" then ""
                   else String.append "#" (EscapedFragment (ReqURL r)))) in
  (fst (ServeHTTP SC h r s) = Redirected <-> fires = true) /\
  (fires = true <->
   indexRedirect h = true /\
   exists dir, fpath = String.append dir "/index.html") /\
  (fires = true ->
   events_of (ServeHTTP SC h r) s
   = [EvSetHeader "Location" loc; EvWriteHeader 301] /\
   next_fd (snd (ServeHTTP SC h r s)) = next_fd s /\
   fst (makeRequest SC h r s)
   = mkRW [("Location", loc)] (Some 301%Z) "") /\
  (indexRedirect h = false -> HasSuffix fpath "/index.html" = true ->
   fst (ServeHTTP SC h r s) <> Redirected /\
   exists res,
     hd_error (events_of (ServeHTTP SC h r) s)
     = Some (EvOpen (Clean fpath) res)).
Proof.
  cbv zeta. fold (location r "./"). destruct s as [w tr n].
  repeat split.
  - handler_split; intros; congruence.
  - intros Hf. handler_unfold. rewrite Hf. reflexivity.
  - now apply andb_true_iff in H.
  - apply andb_true_iff in H. now apply HasSuffix_spec.
  - intros [H1 H2]. apply andb_true_iff. split; [assumption |].
    now apply HasSuffix_spec.
  - handler_unfold. rewrite H. handler_norm. reflexivity.
  - rewrite ServeHTTP_eq. cbv zeta. rewrite H. reflexivity.
  - handler_unfold. cbn [trace next_fd]. rewrite H. reflexivity.
  - handler_unfold. rewrite H. cbn [andb].
    handler_split; discriminate.
  - handler_unfold. rewrite H. cbn [andb].
    rewrite (index_not_trailing_slash _ H0).
    handler_split; cbn [hd_error]; eexists; reflexivity.
Qed.

Lemma eligible_NotExist h :
  eligible h ErrNotExist = negb (String.eqb (fallback h) "").
Proof. unfold eligible. cbn. apply andb_true_r. Qed.

(** [handleError] looks at the error only to decide [eligible]. *)
Lemma handleError_class h r e e' s :
  eligible h e = eligible h e' ->
  handleError SC h r e s = handleError SC h r e' s.
Proof. intros H. rewrite !handleError_eq, H. reflexivity. Qed.

(** The exit and the response of [handleError] depend on the writer it
    starts from, not on the trace or on the descriptors taken so far. *)
Lemma handleError_response h r e s s' :
  rw s = rw s' ->
  fst (handleError SC h r e s) = fst (handleError SC h r e s') /\
  rw (snd (handleError SC h r e s)) = rw (snd (handleError SC h r e s')).
Proof.
  destruct s as [w tr n], s' as [w' tr' n']. cbn [rw]. intros <-.
  handler_split; split; reflexivity.
Qed.

(** C3. A normalized path other than [/] that ends with a slash is never
    redirected and never opened: the handler goes straight to
    [handleError] with [fs.ErrNotExist], so the only name it may open is
    the fallback, and when the fallback is configured and is a regular
    file its content goes to the content responder, whose response (200
    with the file for a plain request) is the response. *)
Theorem trailing_slash_goes_to_fallback h r s :
  let fpath := request_path r in
  let d := next_fd s in
  String.eqb fpath "/" = false ->
  HasSuffix fpath "/" = true ->
  indexRedirect h && HasSuffix fpath "/index.html" = false /\
  ServeHTTP SC h r s = handleError SC h r ErrNotExist s /\
  opened_names (events_of (ServeHTTP SC h r) s)
  = (if String.eqb (fallback h) "" then [] else [fallback h]) /\
  (forall f fi,
     String.eqb (fallback h) "" = false ->
     Open (fs h) (fallback h) = Ok f ->
     Stat f = Ok fi ->
     IsRegular fi = true ->
     ServeHTTP SC h r s
     = (ServedFallback,
        mkWorld (SC r (Name fi) (ModTime fi) (Data f) (rw s))
          (trace s ++ [EvOpen (fallback h) (Ok d); EvStat d;
                       EvServeContent d (Name fi) (ModTime fi); EvClose d])
          (S d)) /\
     fst (makeRequest SC h r s)
     = SC r (Name fi) (ModTime fi) (Data f) NewRecorder /\
     (Code (SC r (Name fi) (ModTime fi) (Data f) NewRecorder) = Some 200%Z ->
      Body (SC r (Name fi) (ModTime fi) (Data f) NewRecorder) = Data f ->
      Code (fst (makeRequest SC h r s)) = Some 200%Z /\
      Body (fst (makeRequest SC h r s)) = Data f)).
Proof.
  cbv zeta. intros Hroot Hslash.
  assert (Hidx : indexRedirect h &&
                 HasSuffix (request_path r) "/index.html" = false).
  { rewrite (trailing_slash_not_index _ Hslash). apply andb_false_r. }
  assert (Heq : forall s0,
            ServeHTTP SC h r s0 = handleError SC h r ErrNotExist s0).
  { intros s0. rewrite ServeHTTP_eq. cbv zeta.
    rewrite Hidx, Hroot, Hslash. reflexivity. }
  split; [exact Hidx |]. split; [apply Heq |]. split.
  - unfold events_of. rewrite Heq.
    change (opened_names (events_of (handleError SC h r ErrNotExist) s)
            = if String.eqb (fallback h) "" then [] else [fallback h]).
    rewrite handleError_opened, eligible_NotExist.
    now destruct (String.eqb (fallback h) "").
  - intros f fi Hfb Hopen Hstat Hreg.
    assert (Hs : forall s0,
              ServeHTTP SC h r s0
              = (ServedFallback,
                 mkWorld (SC r (Name fi) (ModTime fi) (Data f) (rw s0))
                   (trace s0 ++
                    [EvOpen (fallback h) (Ok (next_fd s0)); EvStat (next_fd s0);
                     EvServeContent (next_fd s0) (Name fi) (ModTime fi);
                     EvClose (next_fd s0)])
                   (S (next_fd s0)))).
    { intros s0. rewrite Heq, handleError_eq, eligible_NotExist, Hfb.
      cbv zeta. cbn [negb]. rewrite Hopen, Hstat, Hreg. reflexivity. }
    split; [apply Hs |].
    assert (Hm : fst (makeRequest SC h r s)
                 = SC r (Name fi) (ModTime fi) (Data f) NewRecorder).
    { unfold makeRequest. rewrite Hs. reflexivity. }
    split; [exact Hm |]. rewrite Hm. intros Hc Hb. now split.
Qed.

(** C4. When the lookup itself runs (no redirect, no trailing slash) and
    fails, the handler calls [handleError]: with the error of [Open] or of
    [Stat] when one of them fails, and with [fs.ErrNotExist], the value
    of the trailing-slash rule, when the entry is not a regular file.
    [handleError] treats every not-found or permission error as it
    treats [fs.ErrNotExist]; any other error ends in status 500.  So an
    entry that is not a regular file gets the exit and the response of a
    missing file, and the content responder only ever receives a regular
    file. *)
Theorem lookup_failure_is_not_found h r s :
  let fpath := request_path r in
  let d := next_fd s in
  let s1 := logged [EvOpen (Clean fpath) (Ok d); EvStat d] 1 s in
  let missing := handleError SC h r ErrNotExist s in
  indexRedirect h && HasSuffix fpath "/index.html" = false ->
  negb (String.eqb fpath "/") && HasSuffix fpath "/" = false ->
  (forall e s0,
     errors_Is e ErrNotExist || errors_Is e ErrPermission = true ->
     handleError SC h r e s0 = handleError SC h r ErrNotExist s0) /\
  (forall e s0,
     errors_Is e ErrNotExist || errors_Is e ErrPermission = false ->
     handleError SC h r e s0
     = (Failed, failed_after [] (next_fd s0) s0)) /\
  (forall e,
     Open (fs h) (Clean fpath) = Err e ->
     ServeHTTP SC h r s
     = handleError SC h r e (logged [EvOpen (Clean fpath) (Err e)] 0 s) /\
     (errors_Is e ErrNotExist || errors_Is e ErrPermission = true ->
      fst (ServeHTTP SC h r s) = fst missing /\
      rw (snd (ServeHTTP SC h r s)) = rw (snd missing))) /\
  (forall f e,
     Open (fs h) (Clean fpath) = Ok f ->
     Stat f = Err e ->
     ServeHTTP SC h r s = closing d (handleError SC h r e s1) /\
     (errors_Is e ErrNotExist || errors_Is e ErrPermission = true ->
      fst (ServeHTTP SC h r s) = fst missing /\
      rw (snd (ServeHTTP SC h r s)) = rw (snd missing))) /\
  (forall f fi,
     Open (fs h) (Clean fpath) = Ok f ->
     Stat f = Ok fi ->
     IsRegular fi = false ->
     ServeHTTP SC h r s = closing d (handleError SC h r ErrNotExist s1) /\
     fst (ServeHTTP SC h r s) = fst missing /\
     rw (snd (ServeHTTP SC h r s)) = rw (snd missing)) /\
  (fst (ServeHTTP SC h r s) = Served \/
   fst (ServeHTTP SC h r s) = ServedFallback ->
   exists name f fi,
     Open (fs h) name = Ok f /\ Stat f = Ok fi /\ IsRegular fi = true /\
     rw (snd (ServeHTTP SC h r s))
     = SC r (Name fi) (ModTime fi) (Data f) (rw s)).
Proof.
  cbv zeta. intros Hidx Hslash.
  assert (Hcls : forall e,
            errors_Is e ErrNotExist || errors_Is e ErrPermission = true ->
            eligible h e = eligible h ErrNotExist).
  { intros e He. unfold eligible. rewrite He. reflexivity. }
  assert (Hresp : forall e s0,
            errors_Is e ErrNotExist || errors_Is e ErrPermission = true ->
            rw s0 = rw s ->
            fst (handleError SC h r e s0)
            = fst (handleError SC h r ErrNotExist s) /\
            rw (snd (handleError SC h r e s0))
            = rw (snd (handleError SC h r ErrNotExist s))).
  { intros e s0 He Hw.
    rewrite (handleError_class h r e ErrNotExist s0 (Hcls e He)).
    now apply handleError_response. }
  split; [| split; [| split; [| split; [| split]]]].
  - intros e s0 He. apply handleError_class. now apply Hcls.
  - intros e s0 He. rewrite handleError_eq.
    unfold eligible. rewrite He, andb_false_r. reflexivity.
  - intros e Hopen.
    assert (Hs : ServeHTTP SC h r s
                 = handleError SC h r e
                     (logged [EvOpen (Clean (request_path r)) (Err e)] 0 s)).
    { rewrite ServeHTTP_eq. cbv zeta. rewrite Hidx, Hslash, Hopen.
      reflexivity. }
    split; [exact Hs |]. intros He. rewrite Hs. now apply Hresp.
  - intros f e Hopen Hstat.
    assert (Hs : ServeHTTP SC h r s
                 = closing (next_fd s)
                     (handleError SC h r e
                        (logged [EvOpen (Clean (request_path r))
                                   (Ok (next_fd s)); EvStat (next_fd s)] 1 s))).
    { rewrite ServeHTTP_eq. cbv zeta. rewrite Hidx, Hslash, Hopen, Hstat.
      reflexivity. }
    split; [exact Hs |]. intros He. rewrite Hs. cbn [closing fst snd rw].
    now apply Hresp.
  - intros f fi Hopen Hstat Hreg.
    assert (Hs : ServeHTTP SC h r s
                 = closing (next_fd s)
                     (handleError SC h r ErrNotExist
                        (logged [EvOpen (Clean (request_path r))
                                   (Ok (next_fd s)); EvStat (next_fd s)] 1 s))).
    { rewrite ServeHTTP_eq. cbv zeta.
      rewrite Hidx, Hslash, Hopen, Hstat, Hreg. reflexivity. }
    split; [exact Hs |]. rewrite Hs. cbn [closing fst snd rw].
    now apply handleError_response.
  - destruct s as [w tr n]. handler_split;
      intros [Hx | Hx]; try discriminate Hx;
      match goal with
      | Ho : Open (fs h) ?name = Ok ?f, Hst : Stat ?f = Ok ?fi,
        Hr : IsRegular ?fi = true |- _ =>
          exists name, f, fi; repeat split; assumption
      end.
Qed.

(** C5. Once the fallback is tried, [handleError] opens the fallback
    path and nothing else.  If [Open] fails, or [Stat] fails, or the entry
    is not a regular file, the answer is status 500; there is no second
    fallback.  Otherwise the file goes to the content responder with the
    original request, its own name and modification time, exactly as
    [ServeHTTP] hands over a file it found itself, and the response is the
    responder's. *)
Theorem fallback_resolution h r err s :
  let d := next_fd s in
  let fb := fallback h in
  let X := handleError SC h r err s in
  let failure evs n :=
    (Failed,
     mkWorld (http_Error "Internal Server Error" 500 (rw s))
             (trace s ++ evs) n) in
  String.eqb fb "" = false ->
  errors_Is err ErrNotExist || errors_Is err ErrPermission = true ->
  opened_names (events_of (handleError SC h r err) s) = [fb] /\
  (forall e,
     Open (fs h) fb = Err e ->
     X = failure [EvOpen fb (Err e); EvError 500] d) /\
  (forall f e,
     Open (fs h) fb = Ok f -> Stat f = Err e ->
     X = failure [EvOpen fb (Ok d); EvStat d; EvError 500; EvClose d] (S d)) /\
  (forall f fi,
     Open (fs h) fb = Ok f -> Stat f = Ok fi -> IsRegular fi = false ->
     X = failure [EvOpen fb (Ok d); EvStat d; EvError 500; EvClose d] (S d)) /\
  (forall f fi,
     Open (fs h) fb = Ok f -> Stat f = Ok fi -> IsRegular fi = true ->
     X = (ServedFallback,
          mkWorld (SC r (Name fi) (ModTime fi) (Data f) (rw s))
            (trace s ++ [EvOpen fb (Ok d); EvStat d;
                         EvServeContent d (Name fi) (ModTime fi); EvClose d])
            (S d)) /\
     forall h',
       indexRedirect h' && HasSuffix (request_path r) "/index.html" = false ->
       negb (String.eqb (request_path r) "/") &&
       HasSuffix (request_path r) "/" = false ->
       Open (fs h') (Clean (request_path r)) = Ok f ->
       fst (ServeHTTP SC h' r s) = Served /\
       rw (snd (ServeHTTP SC h' r s)) = rw (snd X)) /\
  (fst X = Failed ->
   rw (snd X) = http_Error "Internal Server Error" 500 (rw s) /\
   (Code (rw s) = None ->
    Code (rw (snd X)) = Some 500%Z /\
    Body (rw (snd X))
    = String.append (Body (rw s))
        (String.append "Internal Server Error" newline))).
Proof.
  cbv zeta. intros Hfb Hcls.
  assert (He : eligible h err = true).
  { unfold eligible. now rewrite Hfb, Hcls. }
  split; [| split; [| split; [| split; [| split]]]].
  - now rewrite handleError_opened, He.
  - intros e Ho. rewrite handleError_eq, He. cbv zeta. rewrite Ho.
    reflexivity.
  - intros f e Ho Hs. rewrite handleError_eq, He. cbv zeta. rewrite Ho, Hs.
    destruct s; handler_norm; reflexivity.
  - intros f fi Ho Hs Hr. rewrite handleError_eq, He. cbv zeta.
    rewrite Ho, Hs, Hr. destruct s; handler_norm; reflexivity.
  - intros f fi Ho Hs Hr. rewrite handleError_eq, He. cbv zeta.
    rewrite Ho, Hs, Hr. split; [reflexivity |].
    intros h' Hi Hsl Ho'. rewrite ServeHTTP_eq. cbv zeta.
    rewrite Hi, Hsl, Ho', Hs, Hr. split; reflexivity.
  - assert (Hw : fst (handleError SC h r err s) = Failed ->
                 rw (snd (handleError SC h r err s))
                 = http_Error "Internal Server Error" 500 (rw s)).
    { destruct s as [w tr n]. handler_split; intros Hx;
        try discriminate Hx; reflexivity. }
    intros Hx. split; [now apply Hw |]. intros Hc. rewrite (Hw Hx).
    now apply http_Error_fresh.
Qed.

(** C6. The path the handler works on is the raw path, with a slash put
    in front when it has none; the redirect check looks at exactly this
    path.  The lookup opens [path.Clean] of it and never the path as it
    came, and the only other name ever opened is the fallback.  The
    cleaned path is the lexical cleaning of the request path: its
    elements are the elements of the request path in their order, with
    the empty ones (redundant separators) and [.] left out and every
    [..] resolved against the element before it; it is a slash followed
    by names joined by single slashes, none of them empty, [.] or [..],
    and each of them an element of the request path, so it stays below
    the root. *)
Theorem request_path_normalized_and_cleaned h r s :
  let raw := Path (ReqURL r) in
  let fpath := request_path r in
  let fires := indexRedirect h && HasSuffix fpath "/index.html" in
  let rejected := negb (String.eqb fpath "/") && HasSuffix fpath "/" in
  let names := opened_names (events_of (ServeHTTP SC h r) s) in
  fpath = (if HasPrefix raw "/" then raw else String.append "/" raw) /\
  HasPrefix fpath "/" = true /\
  (fst (ServeHTTP SC h r s) = Redirected <-> fires = true) /\
  (exists fb,
     (fb = [] \/ fb = [fallback h]) /\
     names = (if fires || rejected then [] else [Clean fpath]) ++ fb) /\
  (exists es,
     Clean fpath = String.append "/" (String.concat "/" es) /\
     Forall good_name es) /\
  Clean fpath
  = String.append "/"
      (String.concat "/" (resolve [] (path_elements fpath))) /\
  Forall good_name (resolve [] (path_elements fpath)) /\
  (forall e,
     In e (resolve [] (path_elements fpath)) -> In e (path_elements fpath)).
Proof.
  cbv zeta.
  assert (Hcl : Clean (request_path r)
                = String.append "/"
                    (String.concat "/"
                       (resolve [] (path_elements (request_path r)))))
    by apply Clean_resolves, request_path_rooted.
  split; [| split; [| split; [| split; [| split; [| split; [| split]]]]]].
  - unfold request_path. now destruct (HasPrefix (Path (ReqURL r)) "/").
  - apply request_path_rooted.
  - destruct s as [w tr n]. split.
    + handler_split; intros; congruence.
    + intros Hf. handler_unfold. rewrite Hf. reflexivity.
  - destruct s as [w tr n].
    destruct (indexRedirect h && HasSuffix (request_path r) "/index.html")
      eqn:Hf;
      destruct (negb (String.eqb (request_path r) "/") &&
                HasSuffix (request_path r) "/") eqn:Hr;
      cbn [orb]; cbv beta iota;
      handler_split; cbn [opened_names app];
      first [ exists []; split; [left; reflexivity | reflexivity]
            | eexists; split; [right; reflexivity | reflexivity] ].
  - apply Clean_rooted, request_path_rooted.
  - exact Hcl.
  - apply resolve_good.
  - intros e He. destruct (resolve_incl _ _ _ He) as [[] | H]; exact H.
Qed.

(** C7. With [Fallback("/dir/test.js")] the fallback of the handler is
    that path and not [/index.html].  A request for [/] is not stopped by
    the trailing-slash rule: [/] is looked up, resolves to no regular
    file, and the handler then opens [/dir/test.js] and hands it to the
    content responder, so the response is the responder's: 200 with the
    bytes of [/dir/test.js] for a plain request. *)
Theorem custom_fallback_serves_root fsys r s f fi :
  let h := StaticHandler fsys [Fallback "/dir/test.js"] in
  let resp := SC r (Name fi) (ModTime fi) (Data f) NewRecorder in
  Path (ReqURL r) = "/" ->
  no_regular_file fsys "/" = true ->
  Open fsys "/dir/test.js" = Ok f ->
  Stat f = Ok fi ->
  IsRegular fi = true ->
  fallback h = "/dir/test.js" /\
  opened_names (events_of (ServeHTTP SC h r) s) = ["/"; "/dir/test.js"] /\
  fst (ServeHTTP SC h r s) = ServedFallback /\
  fst (makeRequest SC h r s) = resp /\
  (Code resp = Some 200%Z -> Body resp = Data f ->
   Code (fst (makeRequest SC h r s)) = Some 200%Z /\
   Body (fst (makeRequest SC h r s)) = Data f).
Proof.
  cbv zeta. intros Hp Hno Ho Hs Hr.
  set (h := StaticHandler fsys [Fallback "/dir/test.js"]).
  assert (Hpath : request_path r = "/").
  { unfold request_path. rewrite Hp. reflexivity. }
  assert (Hall : forall s0,
            opened_names (events_of (ServeHTTP SC h r) s0)
            = ["/"; "/dir/test.js"] /\
            fst (ServeHTTP SC h r s0) = ServedFallback /\
            rw (snd (ServeHTTP SC h r s0))
            = SC r (Name fi) (ModTime fi) (Data f) (rw s0)).
  { assert (Hfs : fs h = fsys) by reflexivity.
    assert (Hfbk : fallback h = "/dir/test.js") by reflexivity.
    assert (Hir : indexRedirect h = true) by reflexivity.
    assert (Hel : forall e,
              errors_Is e ErrNotExist || errors_Is e ErrPermission = true ->
              eligible h e = true).
    { intros e He. unfold eligible. rewrite Hfbk, He. reflexivity. }
    clearbody h. intros [w tr n]. unfold no_regular_file in Hno.
    handler_unfold. rewrite Hpath, Hir, Hfs.
    change (HasSuffix "/" "/index.html") with false.
    change (String.eqb "/" "/") with true.
    change (Clean "/") with "/". cbn [andb negb].
    destruct (Open fsys "/") as [f0|e0].
    - destruct (Stat f0) as [fi0|e0].
      + apply negb_true_iff in Hno. rewrite Hno.
        rewrite handleError_eq, (Hel ErrNotExist eq_refl). cbv zeta.
        rewrite Hfs, Hfbk, Ho, Hs, Hr. handler_norm. repeat split.
      + rewrite handleError_eq, (Hel e0 Hno). cbv zeta.
        rewrite Hfs, Hfbk, Ho, Hs, Hr. handler_norm. repeat split.
    - rewrite handleError_eq, (Hel e0 Hno). cbv zeta.
      rewrite Hfs, Hfbk, Ho, Hs, Hr. handler_norm. repeat split. }
  split; [reflexivity |].
  destruct (Hall s) as (H1 & H2 & _). split; [exact H1 |].
  split; [exact H2 |].
  assert (Hm : fst (makeRequest SC h r s)
               = SC r (Name fi) (ModTime fi) (Data f) NewRecorder).
  { rewrite makeRequest_fst.
    now destruct (Hall (mkWorld NewRecorder (trace s) (next_fd s)))
      as (_ & _ & H3). }
  split; [exact Hm |]. rewrite Hm. intros Hc Hb. now split.
Qed.

(** The exit never depends on the state the handler starts in, and the
    response depends on it only through the writer. *)
Lemma ServeHTTP_state_independent h r s s' :
  fst (ServeHTTP SC h r s) = fst (ServeHTTP SC h r s') /\
  (rw s = rw s' ->
   rw (snd (ServeHTTP SC h r s)) = rw (snd (ServeHTTP SC h r s'))).
Proof.
  destruct s as [w tr n], s' as [w' tr' n']. cbn [rw].
  split; [| intros <-]; handler_split; reflexivity.
Qed.

(** C8. The handler is a function of the URL of the request, of the
    configuration and of the file system.  Two requests with the same URL
    that differ in method (or in headers) leave by the same return
    statement after the same calls on the file system; the responses they
    write themselves (redirect, status 500) are equal, and when a file is
    served the content responder receives the same file for both.  The
    exit does not depend on the state a call starts in, and a request
    repeated after any other request gets the same response. *)
Theorem outcome_function_of_url h r m hd s s' :
  let r' := mkRequest m (ReqURL r) hd in
  let X := ServeHTTP SC h r s in
  let X' := ServeHTTP SC h r' s in
  (fst X = fst X' /\
   trace (snd X) = trace (snd X') /\
   next_fd (snd X) = next_fd (snd X')) /\
  (fst X = Redirected \/ fst X = Failed -> rw (snd X) = rw (snd X')) /\
  (fst X = Served \/ fst X = ServedFallback ->
   exists name mt data,
     rw (snd X) = SC r name mt data (rw s) /\
     rw (snd X') = SC r' name mt data (rw s)) /\
  fst (ServeHTTP SC h r s) = fst (ServeHTTP SC h r s') /\
  fst (makeRequest SC h r s) = fst (makeRequest SC h r s') /\
  fst (makeRequest SC h r (snd (makeRequest SC h r s)))
  = fst (makeRequest SC h r s).
Proof.
  cbv zeta.
  assert (Hm : forall s1 s2,
            fst (makeRequest SC h r s1) = fst (makeRequest SC h r s2)).
  { intros s1 s2. rewrite !makeRequest_fst.
    now apply ServeHTTP_state_independent. }
  split; [| split; [| split; [| split; [| split]]]].
  - destruct s as [w tr n]. rewrite !ServeHTTP_eq. cbv zeta.
    unfold request_path, location. cbn [ReqURL].
    repeat (progress (handler_cases; rewrite ?handleError_eq; cbv zeta));
      handler_norm; repeat split.
  - destruct s as [w tr n]. rewrite !ServeHTTP_eq. cbv zeta.
    unfold request_path, location. cbn [ReqURL].
    repeat (progress (handler_cases; rewrite ?handleError_eq; cbv zeta));
      handler_norm; intros [Hx | Hx]; try discriminate Hx; reflexivity.
  - destruct s as [w tr n]. rewrite !ServeHTTP_eq. cbv zeta.
    unfold request_path, location. cbn [ReqURL].
    repeat (progress (handler_cases; rewrite ?handleError_eq; cbv zeta));
      handler_norm; intros [Hx | Hx]; try discriminate Hx;
      do 3 eexists; split; reflexivity.
  - apply ServeHTTP_state_independent.
  - apply Hm.
  - apply Hm.
Qed.

Lemma remove_self (d : nat) l :
  remove Nat.eq_dec d (d :: l) = remove Nat.eq_dec d l.
Proof. apply remove_cons. Qed.

Lemma remove_below (d : nat) l :
  remove Nat.eq_dec (S d) (d :: l) = d :: remove Nat.eq_dec (S d) l.
Proof.
  change (remove Nat.eq_dec (S d) (d :: l))
    with (if Nat.eq_dec (S d) d then remove Nat.eq_dec (S d) l
          else d :: remove Nat.eq_dec (S d) l).
  destruct (Nat.eq_dec (S d) d); [lia | reflexivity].
Qed.

Lemma remove_none (d : nat) : remove Nat.eq_dec d [] = [].
Proof. reflexivity. Qed.

Ltac count_open :=
  cbn [still_open peak_open peak_from fold_left step_open];
  repeat (progress rewrite ?remove_self, ?remove_below, ?remove_none);
  cbn [length Nat.max].

(** C9, as the code has it.  Every descriptor the handler opens is closed
    before it returns, on every path.  [handleError] on its own holds at
    most one open file.  [ServeHTTP] holds at most two, and two only when
    the looked-up entry was opened and then failed [Stat] or is not a
    regular file: its descriptor is closed by the deferred [Close], after
    [handleError] has opened and closed the fallback. *)
Theorem handles_closed_peak_two h r s :
  let evs := events_of (ServeHTTP SC h r) s in
  still_open evs = [] /\
  peak_open evs <= 2 /\
  (peak_open evs = 2 ->
   exists f f',
     Open (fs h) (Clean (request_path r)) = Ok f /\
     match Stat f with Ok fi => IsRegular fi = false | Err _ => True end /\
     Open (fs h) (fallback h) = Ok f') /\
  (forall err s0,
     still_open (events_of (handleError SC h r err) s0) = [] /\
     peak_open (events_of (handleError SC h r err) s0) <= 1).
Proof.
  cbv zeta. split; [| split; [| split]].
  - destruct s as [w tr n]. handler_split; count_open; reflexivity.
  - destruct s as [w tr n]. handler_split; count_open; lia.
  - destruct s as [w tr n]. handler_split; count_open; intros Hx;
      try discriminate Hx;
      match goal with
      | Ho : Open (fs h) (Clean (request_path r)) = Ok ?f,
        Hf : Open (fs h) (fallback h) = Ok ?f' |- _ =>
          exists f, f'; repeat split;
          match goal with
          | Hs : Stat f = _ |- _ => rewrite Hs; solve [assumption | exact I]
          end
      end.
  - intros err [w tr n]. handler_split; count_open; split;
      solve [reflexivity | lia].
Qed.

(** C10. The fallback a handler is built with is the string given to
    [Fallback], and [handleError] passes it to [Open] as it is: whenever
    the fallback is tried, the one name opened is that string, whether
    or not it starts with a slash and whether or not it is clean. *)
Theorem fallback_opened_verbatim fsys opts f r err s :
  let h := StaticHandler fsys (opts ++ [Fallback f]) in
  fallback h = f /\
  opened_names (events_of (handleError SC h r err) s)
  = (if eligible h err then [f] else []) /\
  (forall name res,
     In (EvOpen name res) (events_of (handleError SC h r err) s) ->
     name = f) /\
  (fst (handleError SC h r err s) = ServedFallback ->
   exists d n t,
     events_of (handleError SC h r err) s
     = [EvOpen f (Ok d); EvStat d; EvServeContent d n t; EvClose d]).
Proof.
  cbv zeta.
  set (h := StaticHandler fsys (opts ++ [Fallback f])).
  assert (Hf : fallback h = f).
  { unfold h, StaticHandler. rewrite fold_left_app. reflexivity. }
  clearbody h. split; [exact Hf |]. split; [| split].
  - rewrite handleError_opened, Hf. reflexivity.
  - intros name res. destruct s as [w tr n]. handler_split; cbn [In];
      intros Hin;
      repeat match goal with
             | H : _ \/ _ |- _ => destruct H
             | H : False |- _ => destruct H
             | H : _ = EvOpen _ _ |- _ => inversion H; clear H
             end; congruence.
  - destruct s as [w tr n]. handler_split; intros Hx; try discriminate Hx.
    rewrite Hf. do 3 eexists. reflexivity.
Qed.

End Properties.

(* ===================================================================== *)
(** ** The statements at work on the test tree *)
(* ===================================================================== *)

Section Instances.
Import TestData.

(** The redirect test reads the bytes as they are: capital letters do not
    match, and the path is not cleaned first ([/a/../index.html] is
    redirected, [/index.html/.] is cleaned and served). *)
Example redirect_is_literal :
  let h := StaticHandler testFS [] in
  map (fun p => fst (ServeHTTP serveWhole h (NewRequest "GET" p "") world0))
      ["/INDEX.HTML"; "/a/../index.html"; "/index.html/."; "index.html"]
  = [ServedFallback; Redirected; Served; Redirected].
Proof. reflexivity. Qed.

(** A fallback that is relative and not clean reaches [Open] as given. *)
Example fallback_not_cleaned :
  let h := StaticHandler testFS [Fallback "dir/../index.html"] in
  events_of (ServeHTTP serveWhole h (NewRequest "GET" "/nothing" "")) world0
  = [EvOpen "/nothing"
       (Err (PathError "open" "testdata/nothing" (Errno ENOENT)));
     EvOpen "dir/../index.html"
       (Err (PathError "open" "testdatadir/../index.html" (Errno ENOENT)));
     EvError 500].
Proof. reflexivity. Qed.

(** Errors that are neither not-found nor permission errors end in 500,
    permission errors fall back, and a fallback that cannot be examined
    ends in 500. *)
Example error_classes :
  (Code (get (StaticHandler brokenFS []) "/x" ""),
   Code (get (StaticHandler lockedFS []) "/x" ""),
   Code (get (StaticHandler unstatFS []) "/x" ""),
   Code (get (StaticHandler testFS [Fallback ""]) "/x" ""))
  = (Some 500%Z, Some 200%Z, Some 500%Z, Some 500%Z).
Proof. reflexivity. Qed.

Lemma trailing_slash_goes_to_fallback_witness :
  String.eqb (request_path (NewRequest "GET" "/dir/" "")) "/" = false /\
  HasSuffix (request_path (NewRequest "GET" "/dir/" "")) "/" = true /\
  ServeHTTP serveWhole (StaticHandler testFS [])
    (NewRequest "GET" "/dir/" "") world0
  = handleError serveWhole (StaticHandler testFS [])
      (NewRequest "GET" "/dir/" "") ErrNotExist world0.
Proof.
  split; [reflexivity |]. split; [reflexivity |].
  exact (proj1 (proj2
    (trailing_slash_goes_to_fallback serveWhole (StaticHandler testFS [])
       (NewRequest "GET" "/dir/" "") world0 eq_refl eq_refl))).
Defined.

Lemma lookup_failure_is_not_found_witness :
  indexRedirect (StaticHandler testFS []) &&
  HasSuffix (request_path (NewRequest "GET" "/dir" "")) "/index.html" = false /\
  negb (String.eqb (request_path (NewRequest "GET" "/dir" "")) "/") &&
  HasSuffix (request_path (NewRequest "GET" "/dir" "")) "/" = false /\
  forall e s0,
    errors_Is e ErrNotExist || errors_Is e ErrPermission = true ->
    handleError serveWhole (StaticHandler testFS [])
      (NewRequest "GET" "/dir" "") e s0
    = handleError serveWhole (StaticHandler testFS [])
        (NewRequest "GET" "/dir" "") ErrNotExist s0.
Proof.
  split; [reflexivity |]. split; [reflexivity |].
  exact (proj1
    (lookup_failure_is_not_found serveWhole (StaticHandler testFS [])
       (NewRequest "GET" "/dir" "") world0 eq_refl eq_refl)).
Defined.

Lemma fallback_resolution_witness :
  String.eqb (fallback (StaticHandler testFS [])) "" = false /\
  errors_Is (PathError "open" "testdata/test.js" (Errno ENOENT)) ErrNotExist
  || errors_Is (PathError "open" "testdata/test.js" (Errno ENOENT))
       ErrPermission = true /\
  opened_names
    (events_of
       (handleError serveWhole (StaticHandler testFS [])
          (NewRequest "GET" "/test.js" "")
          (PathError "open" "testdata/test.js" (Errno ENOENT)))
       world0)
  = ["/index.html"].
Proof.
  split; [reflexivity |]. split; [reflexivity |].
  exact (proj1
    (fallback_resolution serveWhole (StaticHandler testFS [])
       (NewRequest "GET" "/test.js" "")
       (PathError "open" "testdata/test.js" (Errno ENOENT))
       world0 eq_refl eq_refl)).
Defined.

Lemma custom_fallback_serves_root_witness :
  (Path (ReqURL (NewRequest "GET" "/" "")) = "/" /\
   no_regular_file testFS "/" = true /\
   Open testFS "/dir/test.js"
   = Ok (mkFile (Ok (mkFileInfo "test.js" 0 true)) "js();")) /\
  Code (fst (makeRequest serveWhole
               (StaticHandler testFS [Fallback "/dir/test.js"])
               (NewRequest "GET" "/" "") world0)) = Some 200%Z /\
  Body (fst (makeRequest serveWhole
               (StaticHandler testFS [Fallback "/dir/test.js"])
               (NewRequest "GET" "/" "") world0)) = "js();".
Proof.
  split; [repeat split |].
  exact (proj2 (proj2 (proj2 (proj2
    (custom_fallback_serves_root serveWhole testFS
       (NewRequest "GET" "/" "") world0
       (mkFile (Ok (mkFileInfo "test.js" 0 true)) "js();")
       (mkFileInfo "test.js" 0 true)
       eq_refl eq_refl eq_refl eq_refl eq_refl))))
    eq_refl eq_refl).
Defined.

(** C9, against the claim as stated: a request for the directory [/dir]
    opens it, finds it is not a regular file, and opens the fallback
    while the directory is still open; two descriptors are open at the
    same time. *)
Lemma two_handles_open_at_once :
  events_of
    (ServeHTTP serveWhole (StaticHandler testFS [])
       (NewRequest "GET" "/dir" "")) world0
  = [EvOpen "/dir" (Ok 3); EvStat 3;
     EvOpen "/index.html" (Ok 4); EvStat 4;
     EvServeContent 4 "index.html" 0; EvClose 4; EvClose 3] /\
  peak_open
    (events_of
       (ServeHTTP serveWhole (StaticHandler testFS [])
          (NewRequest "GET" "/dir" "")) world0) = 2 /\
  ~ peak_open
      (events_of
         (ServeHTTP serveWhole (StaticHandler testFS [])
            (NewRequest "GET" "/dir" "")) world0) <= 1.
Proof.
  split; [reflexivity |]. split; [reflexivity |].
  change (~ 2 <= 1). lia.
Qed.

End Instances.

(* ===================================================================== *)
(** ** Further properties: building the handler *)
(* ===================================================================== *)

Section OptionFacts.

Lemma fold_options_fs cs h :
  fs (fold_left (fun h opt => opt h) (map to_Option cs) h) = fs h.
Proof.
  revert h; induction cs as [|c cs IH]; intros h; [reflexivity |].
  cbn [map fold_left]. rewrite IH. now destruct c.
Qed.

Lemma fold_options_fallback cs h :
  fallback (fold_left (fun h opt => opt h) (map to_Option cs) h)
  = last_Fallback (fallback h) cs.
Proof.
  revert h; induction cs as [|c cs IH]; intros h; [reflexivity |].
  cbn [map fold_left]. rewrite IH. now destruct c.
Qed.

Lemma fold_options_indexRedirect cs h :
  indexRedirect (fold_left (fun h opt => opt h) (map to_Option cs) h)
  = indexRedirect h && negb (existsb is_NoIndexRedirect cs).
Proof.
  revert h; induction cs as [|c cs IH]; intros h.
  - cbn. now rewrite andb_true_r.
  - cbn [map fold_left existsb]. rewrite IH.
    destruct c; cbn; [reflexivity |]. now rewrite andb_false_r.
Qed.

(** X1. Whatever sequence of [Fallback] and [NoIndexRedirect] options
    [StaticHandler] is given, the handler keeps the file system it was
    given, its fallback is the argument of the last [Fallback] (or
    [/index.html] when there is none), and index redirection is on
    exactly when [NoIndexRedirect] does not occur: no later option turns
    it on again. *)
Theorem StaticHandler_options fsys cs :
  let h := StaticHandler fsys (map to_Option cs) in
  fs h = fsys /\
  fallback h = last_Fallback "/index.html" cs /\
  indexRedirect h = negb (existsb is_NoIndexRedirect cs) /\
  (forall cs1 f cs2,
     cs = cs1 ++ CallFallback f :: cs2 ->
     existsb (fun c => negb (is_NoIndexRedirect c)) cs2 = false ->
     fallback h = f).
Proof.
  cbv zeta. unfold StaticHandler.
  rewrite fold_options_fs, fold_options_fallback, fold_options_indexRedirect.
  repeat split. intros cs1 f cs2 -> Hno.
  assert (Hl : forall d l, last_Fallback d (l ++ CallFallback f :: cs2) = f).
  { intros d l; revert d; induction l as [|c l IHl]; intros d.
    - cbn. clear -Hno. revert f Hno.
      induction cs2 as [|c cs2 IH2]; intros f Hno; [reflexivity |].
      cbn in Hno. destruct c; cbn in Hno; [discriminate |].
      cbn. now apply IH2.
    - destruct c; cbn; apply IHl. }
  apply Hl.
Qed.

End OptionFacts.

(* ===================================================================== *)
(** ** Further properties: one call of the handler *)
(* ===================================================================== *)

Section CallFacts.

Variable SC :
  Request -> string -> Z -> string -> ResponseWriter -> ResponseWriter.

Lemma eqb_above (n : nat) : Nat.eqb (S n) n = false.
Proof. apply Nat.eqb_neq. lia. Qed.

Lemma eqb_below (n : nat) : Nat.eqb n (S n) = false.
Proof. apply Nat.eqb_neq. lia. Qed.

Ltac replay :=
  cbn [use_files responses filter is_response length existsb];
  repeat (progress (rewrite ?Nat.eqb_refl, ?eqb_above, ?eqb_below;
                    cbn [andb orb negb use_files existsb])).

(** X2. A request that is neither redirected nor stopped by the
    trailing-slash rule, and whose cleaned path opens a regular file, is
    answered from that file: the handler opens it, examines it, hands it
    to the content responder with the request and closes it; the fallback
    is not touched, whatever it is. *)
Theorem regular_file_is_served h r s f fi :
  let fpath := request_path r in
  let d := next_fd s in
  indexRedirect h && HasSuffix fpath "/index.html" = false ->
  negb (String.eqb fpath "/") && HasSuffix fpath "/" = false ->
  Open (fs h) (Clean fpath) = Ok f ->
  Stat f = Ok fi ->
  IsRegular fi = true ->
  ServeHTTP SC h r s
  = (Served,
     mkWorld (SC r (Name fi) (ModTime fi) (Data f) (rw s))
       (trace s ++ [EvOpen (Clean fpath) (Ok d); EvStat d;
                    EvServeContent d (Name fi) (ModTime fi); EvClose d])
       (S d)) /\
  fst (makeRequest SC h r s)
  = SC r (Name fi) (ModTime fi) (Data f) NewRecorder.
Proof.
  cbv zeta. intros Hi Hsl Ho Hs Hr.
  assert (Hall : forall s0,
            ServeHTTP SC h r s0
            = (Served,
               mkWorld (SC r (Name fi) (ModTime fi) (Data f) (rw s0))
                 (trace s0 ++
                  [EvOpen (Clean (request_path r)) (Ok (next_fd s0));
                   EvStat (next_fd s0);
                   EvServeContent (next_fd s0) (Name fi) (ModTime fi);
                   EvClose (next_fd s0)])
                 (S (next_fd s0)))).
  { intros s0. rewrite ServeHTTP_eq. cbv zeta.
    rewrite Hi, Hsl, Ho, Hs, Hr. reflexivity. }
  split; [apply Hall |]. rewrite makeRequest_fst, Hall. reflexivity.
Qed.

(** X3. Every call of the handler completes exactly one response: among
    [WriteHeader(301)], [http.Error] and [http.ServeContent] exactly one
    is called, once, and which one is told by the exit. *)
Theorem exactly_one_response h r s :
  let evs := events_of (ServeHTTP SC h r) s in
  responses evs = 1 /\
  (fst (ServeHTTP SC h r s) = Redirected <-> In (EvWriteHeader 301) evs) /\
  (fst (ServeHTTP SC h r s) = Failed <-> In (EvError 500) evs) /\
  (fst (ServeHTTP SC h r s) = Served \/
   fst (ServeHTTP SC h r s) = ServedFallback
   <-> exists d n t, In (EvServeContent d n t) evs).
Proof.
  cbv zeta. destruct s as [w tr n]. repeat split.
  - handler_split; reflexivity.
  - handler_split; intros Hx; try discriminate Hx; cbn; tauto.
  - handler_split; cbn; intros Hx; try reflexivity;
      repeat match goal with
             | H : _ \/ _ |- _ => destruct H
             | H : False |- _ => destruct H
             | H : _ = EvWriteHeader _ |- _ => discriminate H
             end.
  - handler_split; intros Hx; try discriminate Hx; cbn; tauto.
  - handler_split; cbn; intros Hx; try reflexivity;
      repeat match goal with
             | H : _ \/ _ |- _ => destruct H
             | H : False |- _ => destruct H
             | H : _ = EvError _ |- _ => discriminate H
             end.
  - handler_split; intros [Hx | Hx]; try discriminate Hx;
      do 3 eexists; cbn; tauto.
  - handler_split; cbn; intros (d & nm & t & Hx);
      try (left; reflexivity); try (right; reflexivity);
      repeat match goal with
             | H : _ \/ _ |- _ => destruct H
             | H : False |- _ => destruct H
             | H : _ = EvServeContent _ _ _ |- _ => discriminate H
             end.
Qed.

(** X4. The handler uses its files in order on every path: it never
    examines or serves a file that is not open, closes each file it
    opened exactly once, the one opened last first (so the fallback
    before the file of the lookup), and has none open when it returns.
    The same holds for [handleError] on its own. *)
Theorem files_used_in_order h r s :
  use_files [] (events_of (ServeHTTP SC h r) s) = Some [] /\
  (forall err s0,
     use_files [] (events_of (handleError SC h r err) s0) = Some []).
Proof.
  split.
  - destruct s as [w tr n]. handler_split; replay; reflexivity.
  - intros err [w tr n]. handler_split; replay; reflexivity.
Qed.

(** X5. With the fallback disabled (the empty string) the handler has
    three outcomes only: the redirect, the file the lookup found, or
    status 500 for everything else, a missing file included.  It never
    serves a fallback and never opens any name but the cleaned request
    path. *)
Theorem disabled_fallback_fails h r s :
  let fpath := request_path r in
  let X := ServeHTTP SC h r s in
  fallback h = "" ->
  fst X
  = (if indexRedirect h && HasSuffix fpath "/index.html" then Redirected
     else if negb (String.eqb fpath "/") && HasSuffix fpath "/" then Failed
     else match Open (fs h) (Clean fpath) with
          | Ok f =>
              match Stat f with
              | Ok fi => if IsRegular fi then Served else Failed
              | Err _ => Failed
              end
          | Err _ => Failed
          end) /\
  (opened_names (events_of (ServeHTTP SC h r) s) = [] \/
   opened_names (events_of (ServeHTTP SC h r) s) = [Clean fpath]) /\
  (fst X = Failed ->
   rw (snd X) = http_Error "Internal Server Error" 500 (rw s)).
Proof.
  cbv zeta. intros Hfb.
  assert (Hel : forall e, eligible h e = false).
  { intros e. unfold eligible. rewrite Hfb. reflexivity. }
  destruct s as [w tr n]. repeat split.
  - handler_unfold. handler_cases; rewrite ?handleError_eq, ?Hel;
      handler_norm; reflexivity.
  - handler_unfold. handler_cases; rewrite ?handleError_eq, ?Hel;
      handler_norm; cbn [opened_names]; tauto.
  - handler_unfold. handler_cases; rewrite ?handleError_eq, ?Hel;
      handler_norm; intros Hx; try discriminate Hx; reflexivity.
Qed.

Lemma errors_Is_root_cause err :
  errors_Is err ErrNotExist || errors_Is err ErrPermission
  = falls_back (root_cause err).
Proof.
  induction err as [| | | | | e | msg | op p inner IH]; try reflexivity.
  - cbn. now rewrite orb_assoc.
  - exact IH.
Qed.

Lemma root_cause_idempotent err : root_cause (root_cause err) = root_cause err.
Proof. induction err; try reflexivity. assumption. Qed.

Lemma errors_Is_unwrap err :
  errors_Is err ErrNotExist = errors_Is (root_cause err) ErrNotExist /\
  errors_Is err ErrPermission = errors_Is (root_cause err) ErrPermission.
Proof.
  induction err as [| | | | | e | msg | op p inner IH];
    try (split; reflexivity).
  exact IH.
Qed.

(** X6. [handleError] looks through [*fs.PathError] wrappers: an error
    wrapped in any number of them is handled exactly as the error they
    wrap.  So the fallback is tried exactly when the fallback path is
    not empty and [errors.Is] holds of the wrapped error for
    [fs.ErrNotExist] or [fs.ErrPermission]; when the wrapped error is a
    [syscall.Errno], that is exactly for [ENOENT], [EACCES] and
    [EPERM]. *)
Theorem handleError_by_root_cause h r err s :
  handleError SC h r err s = handleError SC h r (root_cause err) s /\
  (forall op p,
     handleError SC h r (PathError op p err) s = handleError SC h r err s) /\
  (opened_names (events_of (handleError SC h r err) s) = [fallback h]
   <-> String.eqb (fallback h) "" = false /\
       (errors_Is (root_cause err) ErrNotExist = true \/
        errors_Is (root_cause err) ErrPermission = true)) /\
  (forall e,
     root_cause err = Errno e ->
     (opened_names (events_of (handleError SC h r err) s) = [fallback h]
      <-> String.eqb (fallback h) "" = false /\
          (e = ENOENT \/ e = EACCES \/ e = EPERM))).
Proof.
  assert (Hel : forall e, eligible h e = eligible h (root_cause e)).
  { intros e. unfold eligible.
    now rewrite !errors_Is_root_cause, root_cause_idempotent. }
  assert (Hop : opened_names (events_of (handleError SC h r err) s)
                = [fallback h]
                <-> String.eqb (fallback h) "" = false /\
                    (errors_Is (root_cause err) ErrNotExist = true \/
                     errors_Is (root_cause err) ErrPermission = true)).
  { rewrite handleError_opened. unfold eligible.
    destruct (errors_Is_unwrap err) as [-> ->].
    destruct (String.eqb (fallback h) ""),
      (errors_Is (root_cause err) ErrNotExist),
      (errors_Is (root_cause err) ErrPermission); cbn; split;
      intros H; try discriminate H; try reflexivity;
      try (split; [reflexivity | tauto]);
      destruct H as [H1 [H2 | H2]]; discriminate. }
  split; [| split; [| split]].
  - apply handleError_class, Hel.
  - intros op p. apply handleError_class. rewrite (Hel (PathError op p err)).
    cbn [root_cause]. symmetry. apply Hel.
  - exact Hop.
  - intros e He. rewrite Hop, He. cbn [errors_Is error_eqb orb Errno_Is].
    rewrite orb_true_iff, !Z.eqb_eq. tauto.
Qed.

End CallFacts.

(* ===================================================================== *)
(** ** Further properties: the fragment of the redirect *)
(* ===================================================================== *)

Section EscapeFacts.

(** What [escape] writes for one byte decodes to that byte and passes
    [validEncoded]; checked on each of the 256 bytes. *)
Lemma escape_byte_sound c :
  let hi := upperhex (nat_of_ascii c / 16) in
  let lo := upperhex (nat_of_ascii c mod 16) in
  if shouldEscape c
  then ishex hi && ishex lo = true /\
       ascii_of_nat (unhex hi * 16 + unhex lo) = c /\
       valid_byte hi && valid_byte lo = true
  else Ascii.eqb c "%" = false /\ valid_byte c = true.
Proof.
  destruct c as [[] [] [] [] [] [] [] []]; vm_compute; repeat split.
Qed.

Lemma unescape_escape_bytes l :
  unescape_bytes (escape_bytes l) = Some l.
Proof.
  induction l as [|c l IH]; [reflexivity |].
  pose proof (escape_byte_sound c) as Hc. cbv zeta in Hc.
  cbn [escape_bytes]. destruct (shouldEscape c).
  - destruct Hc as (Hh & Hv & _).
    cbn [unescape_bytes]. change (Ascii.eqb "%" "%") with true. cbv iota.
    rewrite Hh, IH. cbn [option_map]. now rewrite Hv.
  - destruct Hc as (Hp & _).
    cbn [unescape_bytes]. rewrite Hp, IH. reflexivity.
Qed.

Lemma escape_bytes_valid l :
  forallb valid_byte (escape_bytes l) = true.
Proof.
  induction l as [|c l IH]; [reflexivity |].
  pose proof (escape_byte_sound c) as Hc. cbv zeta in Hc.
  cbn [escape_bytes]. destruct (shouldEscape c).
  - destruct Hc as (_ & _ & Hv). cbn [forallb].
    change (valid_byte "%") with true. cbn [andb].
    rewrite IH, andb_true_r. rewrite <- Hv. now rewrite andb_comm, andb_comm.
  - destruct Hc as (_ & Hv). cbn [forallb]. now rewrite Hv, IH.
Qed.

Lemma unescape_escape s : unescape (escape s) = Some s.
Proof.
  unfold unescape, escape.
  rewrite list_ascii_of_string_of_list_ascii, unescape_escape_bytes.
  cbn [option_map]. now rewrite string_of_list_ascii_of_string.
Qed.

Lemma escape_valid s : validEncoded (escape s) = true.
Proof.
  unfold validEncoded, escape.
  rewrite list_ascii_of_string_of_list_ascii.
  exact (escape_bytes_valid (list_ascii_of_string s)).
Qed.

(** X7. The fragment [redirect] puts after [#] is a faithful encoding
    of the fragment of the request: whichever of the raw fragment and the
    escaped fragment [EscapedFragment] returns, it passes [validEncoded]
    and decodes back to the fragment; escaping and then unescaping any
    string gives the string back. *)
Theorem EscapedFragment_round_trip u :
  unescape (EscapedFragment u) = Some (Fragment u) /\
  validEncoded (EscapedFragment u) = true /\
  (forall s, unescape (escape s) = Some s /\ validEncoded (escape s) = true).
Proof.
  assert (He : unescape (escape (Fragment u)) = Some (Fragment u) /\
               validEncoded (escape (Fragment u)) = true)
    by (split; [apply unescape_escape | apply escape_valid]).
  split; [| split].
  - unfold EscapedFragment.
    destruct (negb (String.eqb (RawFragment u) "") &&
              validEncoded (RawFragment u)); [| apply He].
    destruct (unescape (RawFragment u)) as [f|] eqn:Eu; [| apply He].
    destruct (String.eqb f (Fragment u)) eqn:Ef; [| apply He].
    apply String.eqb_eq in Ef. now subst f.
  - unfold EscapedFragment.
    destruct (negb (String.eqb (RawFragment u) "") &&
              validEncoded (RawFragment u)) eqn:Ev; [| apply He].
    destruct (unescape (RawFragment u)) as [f|] eqn:Eu; [| apply He].
    destruct (String.eqb f (Fragment u)) eqn:Ef; [| apply He].
    now apply andb_true_iff in Ev.
  - intros s. split; [apply unescape_escape | apply escape_valid].
Qed.

End EscapeFacts.

(* ===================================================================== *)
(** ** Further properties: cleaning a clean path *)
(* ===================================================================== *)

Section CleanAgain.

Lemma copy_element_whole e : forall rest' out,
  Forall (fun c => is_slash c = false) e ->
  at_boundary rest' ->
  copy_element (e ++ rest') out = (rest', rev e ++ out).
Proof.
  induction e as [|c e IH]; intros rest' out He Hb.
  - destruct rest' as [|c rest']; [reflexivity |].
    cbn in Hb. cbn. now rewrite Hb.
  - inversion He; subst. cbn [app copy_element].
    match goal with H : is_slash c = false |- _ => rewrite H end.
    rewrite IH by assumption. cbn [rev]. now rewrite <- app_assoc.
Qed.

Lemma is_dot_slash : is_dot slash = false.
Proof. reflexivity. Qed.

(** One turn of the loop on a good element copies it to the buffer. *)
Lemma clean_loop_element fuel e rest' res :
  good_element e ->
  Forall good_element res ->
  at_boundary rest' ->
  clean_loop (S fuel) true (e ++ rest') (render res) 1
  = clean_loop fuel true rest' (render (e :: res)) 1.
Proof.
  intros (Hne & Hd & Hdd & Hs) Hres Hb.
  destruct e as [|c0 e']; [congruence |].
  inversion Hs as [|? ? Hc0 Hs']; subst.
  cbn [app clean_loop]. rewrite Hc0.
  assert (E1 : is_dot c0 &&
               match e' ++ rest' with [] => true | c1 :: _ => is_slash c1 end
               = false).
  { destruct (is_dot c0) eqn:D0; [| reflexivity]. cbn [andb].
    apply is_dot_true in D0. subst c0.
    destruct e' as [|c1 e'']; [congruence |].
    inversion Hs'; subst. assumption. }
  assert (E2 : is_dot c0 &&
               match e' ++ rest' with
               | c1 :: r2 =>
                   is_dot c1 &&
                   match r2 with [] => true | c2 :: _ => is_slash c2 end
               | [] => false
               end = false).
  { destruct (is_dot c0) eqn:D0; [| reflexivity]. cbn [andb].
    apply is_dot_true in D0. subst c0.
    destruct e' as [|c1 e'']; [congruence |]. cbn [app].
    destruct (is_dot c1) eqn:D1; [| reflexivity]. cbn [andb].
    apply is_dot_true in D1. subst c1.
    destruct e'' as [|c2 e3]; [congruence |]. cbn [app].
    inversion Hs' as [|? ? _ Hs'']; subst. now inversion Hs''. }
  rewrite E1, E2. cbn [andb orb negb]. rewrite orb_false_r.
  change (c0 :: e' ++ rest') with ((c0 :: e') ++ rest').
  rewrite copy_element_whole by (assumption || now constructor).
  replace (rev (c0 :: e') ++
           (if negb (length (render res) =? 1)
            then slash :: render res else render res))
    with (render ((c0 :: e') :: res)); [reflexivity |].
  cbn [render]. destruct res as [|e2 res]; [reflexivity |].
  pose proof (render_length_cons e2 res (proj1 (Forall_inv Hres))).
  replace (length (render (e2 :: res)) =? 1) with false; [reflexivity |].
  symmetry. apply Nat.eqb_neq. lia.
Qed.

Lemma good_element_length e : good_element e -> 1 <= length e.
Proof. intros (Hne & _). destruct e; [congruence | cbn; lia]. Qed.

(** The loop on good elements joined by slashes writes them all. *)
Lemma clean_loop_joinl es : forall res fuel,
  Forall good_element es ->
  Forall good_element res ->
  length (joinl es) <= fuel ->
  clean_loop fuel true (joinl es) (render res) 1 = render (rev es ++ res).
Proof.
  induction es as [|e es IH]; intros res fuel Hes Hres Hf.
  - destruct fuel; reflexivity.
  - inversion Hes as [|? ? He Hes']; subst.
    pose proof (good_element_length e He) as Hl.
    destruct es as [|e2 es].
    + cbn [joinl] in *. destruct fuel as [|fuel]; [lia |].
      rewrite <- (app_nil_r e) at 1.
      rewrite clean_loop_element by (assumption || exact I).
      destruct fuel; reflexivity.
    + change (joinl (e :: e2 :: es)) with (e ++ slash :: joinl (e2 :: es)) in *.
      rewrite length_app in Hf. cbn [length] in Hf.
      destruct fuel as [|fuel]; [lia |].
      rewrite clean_loop_element by (assumption || reflexivity).
      destruct fuel as [|fuel]; [lia |].
      cbn [clean_loop]. replace (is_slash slash) with true by reflexivity.
      rewrite IH; [| assumption | now constructor | lia].
      cbn [rev]. now rewrite <- !app_assoc.
Qed.

Lemma clean_bytes_fixed es :
  Forall good_element es ->
  clean_bytes (slash :: joinl es) = slash :: joinl es.
Proof.
  intros Hes. unfold clean_bytes.
  replace (is_slash slash) with true by reflexivity.
  change [slash] with (render []).
  rewrite clean_loop_joinl by (assumption || constructor || lia).
  rewrite app_nil_r. pose proof (render_nonempty (rev es)) as Hn.
  destruct (render (rev es)) eqn:E; [congruence |].
  rewrite <- E, rev_render, rev_involutive. reflexivity.
Qed.

Lemma list_of_concat es :
  list_ascii_of_string (String.concat "/" es)
  = joinl (map list_ascii_of_string es).
Proof.
  induction es as [|e es IH]; [reflexivity |].
  destruct es as [|e2 es]; [reflexivity |].
  change (String.concat "/" (e :: e2 :: es))
    with (String.append e (String.append "/" (String.concat "/" (e2 :: es)))).
  rewrite !list_ascii_of_string_app, IH. reflexivity.
Qed.

Lemma Clean_fixed es :
  Forall good_name es ->
  Clean (String.append "/" (String.concat "/" es))
  = String.append "/" (String.concat "/" es).
Proof.
  intros Hes. unfold Clean.
  rewrite list_ascii_of_string_app, list_of_concat.
  change (list_ascii_of_string "/") with [slash]. cbn [app].
  rewrite clean_bytes_fixed.
  - rewrite <- list_of_concat.
    change (slash :: list_ascii_of_string (String.concat "/" es))
      with (list_ascii_of_string
              (String.append "/" (String.concat "/" es))).
    apply string_of_list_ascii_of_string.
  - apply Forall_map. exact Hes.
Qed.

(** X8. A path that is already clean (a slash, then names joined by
    single slashes, none of them empty, [.] or [..]) is left as it is by
    [path.Clean], so the handler opens such a request path unchanged;
    and cleaning is idempotent on rooted paths: the name the handler
    opens for a request is a fixed point of [path.Clean]. *)
Theorem Clean_idempotent :
  (forall es,
     Forall good_name es ->
     Clean (String.append "/" (String.concat "/" es))
     = String.append "/" (String.concat "/" es)) /\
  (forall p, HasPrefix p "/" = true -> Clean (Clean p) = Clean p) /\
  (forall r, Clean (Clean (request_path r)) = Clean (request_path r)).
Proof.
  assert (Hi : forall p, HasPrefix p "/" = true -> Clean (Clean p) = Clean p).
  { intros p Hp. destruct (Clean_rooted p Hp) as (es & -> & Hes).
    now apply Clean_fixed. }
  split; [exact Clean_fixed |]. split; [exact Hi |].
  intros r. apply Hi, request_path_rooted.
Qed.

End CleanAgain.

(* ===================================================================== *)
(** ** Further properties: requests end to end *)
(* ===================================================================== *)

Section EndToEnd.

Variable SC :
  Request -> string -> Z -> string -> ResponseWriter -> ResponseWriter.

Lemma no_regular_file_eligible h name :
  String.eqb (fallback h) "" = false ->
  no_regular_file (fs h) name = true ->
  match Open (fs h) name with
  | Err e => eligible h e = true
  | Ok f =>
      match Stat f with
      | Err e => eligible h e = true
      | Ok fi => IsRegular fi = false /\ eligible h ErrNotExist = true
      end
  end.
Proof.
  intros Hfb Hno. unfold no_regular_file in Hno. unfold eligible.
  rewrite Hfb. cbn [negb andb].
  destruct (Open (fs h) name) as [f|e]; [| exact Hno].
  destruct (Stat f) as [fi|e]; [| exact Hno].
  split; [now apply negb_true_iff | reflexivity].
Qed.

(** X9. Whenever the lookup of the cleaned request path ends without a
    regular file for a reason that falls back (a missing or forbidden
    entry, an entry that cannot be examined for such a reason, a
    directory), and the fallback is a regular file, the response is the
    content responder's on the fallback file, for any path and any
    fallback: the handler opens the cleaned path, then the fallback, and
    nothing else. *)
Theorem failed_lookup_gets_fallback h r s f fi :
  let fpath := request_path r in
  indexRedirect h && HasSuffix fpath "/index.html" = false ->
  negb (String.eqb fpath "/") && HasSuffix fpath "/" = false ->
  String.eqb (fallback h) "" = false ->
  no_regular_file (fs h) (Clean fpath) = true ->
  Open (fs h) (fallback h) = Ok f ->
  Stat f = Ok fi ->
  IsRegular fi = true ->
  fst (ServeHTTP SC h r s) = ServedFallback /\
  rw (snd (ServeHTTP SC h r s))
  = SC r (Name fi) (ModTime fi) (Data f) (rw s) /\
  opened_names (events_of (ServeHTTP SC h r) s) = [Clean fpath; fallback h] /\
  fst (makeRequest SC h r s)
  = SC r (Name fi) (ModTime fi) (Data f) NewRecorder.
Proof.
  cbv zeta. intros Hi Hsl Hfb Hno Ho Hs Hr.
  pose proof (no_regular_file_eligible h _ Hfb Hno) as Hel.
  assert (Hall : forall s0,
            fst (ServeHTTP SC h r s0) = ServedFallback /\
            rw (snd (ServeHTTP SC h r s0))
            = SC r (Name fi) (ModTime fi) (Data f) (rw s0) /\
            opened_names (events_of (ServeHTTP SC h r) s0)
            = [Clean (request_path r); fallback h]).
  { intros [w tr n]. handler_unfold. rewrite Hi, Hsl.
    destruct (Open (fs h) (Clean (request_path r))) as [f0|e0].
    - destruct (Stat f0) as [fi0|e0].
      + destruct Hel as [Hn He]. rewrite Hn, handleError_eq, He. cbv zeta.
        rewrite Ho, Hs, Hr. handler_norm. repeat split.
      + rewrite handleError_eq, Hel. cbv zeta.
        rewrite Ho, Hs, Hr. handler_norm. repeat split.
    - rewrite handleError_eq, Hel. cbv zeta.
      rewrite Ho, Hs, Hr. handler_norm. repeat split. }
  destruct (Hall s) as (H1 & H2 & H3). repeat split; try assumption.
  rewrite makeRequest_fst.
  now destruct (Hall (mkWorld NewRecorder (trace s) (next_fd s)))
    as (_ & H4 & _).
Qed.

(** X10. An error of [Open] or [Stat] on the cleaned request path whose
    root cause is neither a not-found nor a permission error is never
    hidden behind the fallback: the handler answers status 500 with the
    generic text and does not open the fallback, even when one is
    configured and valid. *)
Theorem other_errors_are_fatal h r s e :
  let fpath := request_path r in
  let d := next_fd s in
  indexRedirect h && HasSuffix fpath "/index.html" = false ->
  negb (String.eqb fpath "/") && HasSuffix fpath "/" = false ->
  falls_back (root_cause e) = false ->
  (Open (fs h) (Clean fpath) = Err e ->
   ServeHTTP SC h r s
   = (Failed,
      mkWorld (http_Error "Internal Server Error" 500 (rw s))
        (trace s ++ [EvOpen (Clean fpath) (Err e); EvError 500]) d)) /\
  (forall f,
     Open (fs h) (Clean fpath) = Ok f ->
     Stat f = Err e ->
     ServeHTTP SC h r s
     = (Failed,
        mkWorld (http_Error "Internal Server Error" 500 (rw s))
          (trace s ++ [EvOpen (Clean fpath) (Ok d); EvStat d;
                       EvError 500; EvClose d]) (S d))).
Proof.
  cbv zeta. intros Hi Hsl He.
  assert (Hel : eligible h e = false).
  { unfold eligible. now rewrite errors_Is_root_cause, He, andb_false_r. }
  destruct s as [w tr n]. split.
  - intros Ho. rewrite ServeHTTP_eq. cbv zeta. rewrite Hi, Hsl, Ho.
    rewrite handleError_eq, Hel. handler_norm. reflexivity.
  - intros f Ho Hs. rewrite ServeHTTP_eq. cbv zeta. rewrite Hi, Hsl, Ho, Hs.
    rewrite handleError_eq, Hel. handler_norm. reflexivity.
Qed.

(** X11. A request path without a leading slash is handled as the same
    path with the slash: both requests leave by the same exit after the
    same calls, and the responses the handler writes itself are equal.
    In particular the empty path is the root: the handler opens [/]. *)
Theorem leading_slash_optional h r s :
  let u := ReqURL r in
  let r' := mkRequest (Method r)
              (mkURL (String.append "/" (Path u)) (RawQuery u) (Fragment u)
                     (RawFragment u))
              (ReqHeader r) in
  let X := ServeHTTP SC h r s in
  let X' := ServeHTTP SC h r' s in
  HasPrefix (Path u) "/" = false ->
  request_path r = String.append "/" (Path u) /\
  fst X = fst X' /\
  trace (snd X) = trace (snd X') /\
  (fst X = Redirected \/ fst X = Failed -> rw (snd X) = rw (snd X')) /\
  (Path u = "" ->
   exists res,
     hd_error (events_of (ServeHTTP SC h r) s) = Some (EvOpen "/" res)).
Proof.
  cbv zeta. intros Hp.
  assert (Hrp : request_path r = String.append "/" (Path (ReqURL r))).
  { unfold request_path. now rewrite Hp. }
  set (r' := mkRequest _ _ _).
  assert (Hrp' : request_path r' = request_path r).
  { rewrite Hrp. unfold request_path, r'. cbn [ReqURL Path].
    replace (HasPrefix (String.append "/" (Path (ReqURL r))) "/") with true;
      [reflexivity |].
    symmetry. apply HasPrefix_spec. now exists (Path (ReqURL r)). }
  assert (Hloc : forall dst, location r' dst = location r dst) by reflexivity.
  split; [exact Hrp |]. destruct s as [w tr n].
  split; [| split; [| split]].
  - rewrite !ServeHTTP_eq. cbv zeta. rewrite Hrp', Hloc.
    repeat (progress (handler_cases; rewrite ?handleError_eq; cbv zeta));
      handler_norm; reflexivity.
  - rewrite !ServeHTTP_eq. cbv zeta. rewrite Hrp', Hloc.
    repeat (progress (handler_cases; rewrite ?handleError_eq; cbv zeta));
      handler_norm; reflexivity.
  - rewrite !ServeHTTP_eq. cbv zeta. rewrite Hrp', Hloc.
    repeat (progress (handler_cases; rewrite ?handleError_eq; cbv zeta));
      handler_norm; intros [Hx | Hx]; try discriminate Hx; reflexivity.
  - intros He. handler_unfold. rewrite Hrp, He.
    change (String.append "/" "") with "/".
    change (HasSuffix "/" "/index.html") with false.
    change (String.eqb "/" "/") with true.
    change (Clean "/") with "/". rewrite andb_false_r. cbn [negb andb].
    handler_split; cbn [hd_error]; eexists; reflexivity.
Qed.

End EndToEnd.

(* ===================================================================== *)
(** ** Further properties: the headers of a redirect *)
(* ===================================================================== *)

Section RedirectFacts.





End RedirectFacts.

(* ===================================================================== *)
(** ** The further properties at work on the test tree *)
(* ===================================================================== *)

Section MoreInstances.
Import TestData.

(** The replay refuses a file used after it was closed, a file closed
    out of turn and a file never opened. *)
Example use_files_refuses :
  map (use_files [])
      [[EvOpen "/a" (Ok 1); EvClose 1; EvStat 1];
       [EvOpen "/a" (Ok 1); EvOpen "/b" (Ok 2); EvClose 1; EvClose 2];
       [EvServeContent 7 "a" 0];
       [EvOpen "/a" (Ok 1); EvStat 1]]
  = [None; None; None; Some [1]].
Proof. reflexivity. Qed.

(** Options in action: the last [Fallback] counts and [NoIndexRedirect]
    stays. *)
Example options_in_order :
  let h := StaticHandler testFS
             [Fallback "/a"; NoIndexRedirect; Fallback "/dir/test.js"] in
  (fallback h, indexRedirect h) = ("/dir/test.js", false).
Proof. reflexivity. Qed.

(** Escaping a fragment with a space, a percent sign and a byte above
    127, and reading it back. *)
Example escape_example :
  escape "a b%" = "a%20b%25" /\
  unescape "a%20b%25" = Some "a b%" /\
  unescape "%zz" = None /\
  EscapedFragment (mkURL "/" "" "a b" "a%20b") = "a%20b" /\
  EscapedFragment (mkURL "/" "" "a b" "a+b") = "a%20b".
Proof. repeat split. Qed.

Lemma regular_file_is_served_witness :
  (indexRedirect (StaticHandler testFS []) &&
   HasSuffix (request_path (NewRequest "GET" "/test.css" "")) "/index.html"
   = false /\
   negb (String.eqb (request_path (NewRequest "GET" "/test.css" "")) "/") &&
   HasSuffix (request_path (NewRequest "GET" "/test.css" "")) "/" = false /\
   Open testFS "/test.css"
   = Ok (mkFile (Ok (mkFileInfo "test.css" 0 true)) "body{}")) /\
  fst (makeRequest serveWhole (StaticHandler testFS [])
         (NewRequest "GET" "/test.css" "") world0)
  = serveWhole (NewRequest "GET" "/test.css" "") "test.css" 0 "body{}"
      NewRecorder.
Proof.
  split; [repeat split |].
  exact (proj2
    (regular_file_is_served serveWhole (StaticHandler testFS [])
       (NewRequest "GET" "/test.css" "") world0
       (mkFile (Ok (mkFileInfo "test.css" 0 true)) "body{}")
       (mkFileInfo "test.css" 0 true)
       eq_refl eq_refl eq_refl eq_refl eq_refl)).
Defined.

Lemma disabled_fallback_fails_witness :
  fallback (StaticHandler testFS [Fallback ""]) = "" /\
  fst (ServeHTTP serveWhole (StaticHandler testFS [Fallback ""])
         (NewRequest "GET" "/missing" "") world0) = Failed.
Proof.
  split; [reflexivity |].
  exact (proj1
    (disabled_fallback_fails serveWhole (StaticHandler testFS [Fallback ""])
       (NewRequest "GET" "/missing" "") world0 eq_refl)).
Defined.

Lemma failed_lookup_gets_fallback_witness :
  (String.eqb (fallback (StaticHandler lockedFS [])) "" = false /\
   no_regular_file lockedFS (Clean "/secret") = true /\
   Open lockedFS "/index.html"
   = Ok (mkFile (Ok (mkFileInfo "index.html" 0 true)) "<index>")) /\
  fst (ServeHTTP serveWhole (StaticHandler lockedFS [])
         (NewRequest "GET" "/secret" "") world0) = ServedFallback.
Proof.
  split; [repeat split |].
  exact (proj1
    (failed_lookup_gets_fallback serveWhole (StaticHandler lockedFS [])
       (NewRequest "GET" "/secret" "") world0
       (mkFile (Ok (mkFileInfo "index.html" 0 true)) "<index>")
       (mkFileInfo "index.html" 0 true)
       eq_refl eq_refl eq_refl eq_refl eq_refl eq_refl eq_refl)).
Defined.

Lemma other_errors_are_fatal_witness :
  (falls_back (root_cause (PathError "open" "/x" (Errno EIO))) = false /\
   Open brokenFS (Clean "/x") = Err (PathError "open" "/x" (Errno EIO))) /\
  ServeHTTP serveWhole (StaticHandler brokenFS [])
    (NewRequest "GET" "/x" "") world0
  = (Failed,
     mkWorld (http_Error "Internal Server Error" 500 (rw world0))
       (trace world0 ++
        [EvOpen "/x" (Err (PathError "open" "/x" (Errno EIO)));
         EvError 500])
       (next_fd world0)).
Proof.
  split; [repeat split |].
  exact (proj1
    (other_errors_are_fatal serveWhole (StaticHandler brokenFS [])
       (NewRequest "GET" "/x" "") world0
       (PathError "open" "/x" (Errno EIO))
       eq_refl eq_refl eq_refl) eq_refl).
Defined.

Lemma leading_slash_optional_witness :
  HasPrefix (Path (ReqURL (NewRequest "GET" "test.css" ""))) "/" = false /\
  request_path (NewRequest "GET" "test.css" "") = "/test.css".
Proof.
  split; [reflexivity |].
  exact (proj1
    (leading_slash_optional serveWhole (StaticHandler testFS [])
       (NewRequest "GET" "test.css" "") world0 eq_refl)).
Defined.

End MoreInstances.
